(** * wallet-tracker-fe: the live event ingestion pipeline

    A shallow embedding of the client-side streaming logic of the
    dashboard: the three SSE hooks of [src/lib/hooks/useSSE.ts], the
    combined feed of the live page ([app/(dashboard)/live/page.tsx]) and
    the two mini-feeds of the dashboard page.

    React state and refs are modelled by explicit state passing: a state
    setter called with an updater function is the application of that
    function to the current state, a ref is a record field.  Everything
    the code does to the outside world (console output, toasts, sounds,
    timers, consumer callbacks) is recorded as a list of effects. *)

From Stdlib Require Import ZArith Lia Ascii DecimalString.
From stdpp Require Import base option list strings.

Local Open Scope Z_scope.

#[local] Set Warnings "-register-all".

(** ** JavaScript primitives used by the code *)

Module JS.

(** Truthiness of a possibly absent string: [undefined] and the empty
    string are falsy. *)
Definition truthy (o : option string) : bool :=
  match o with
  | Some s => negb (String.eqb s "")
  | None => false
  end.

(** A value interpolated in a template literal. *)
Definition interpolate (o : option string) : string :=
  match o with
  | Some s => s
  | None => "undefined"
  end.

(** [a || b] on numbers (integers only; NaN is not modelled): [0] and
    [undefined] are falsy. *)
Definition or_num (o : option Z) (d : Z) : Z :=
  match o with
  | Some 0 => d
  | Some n => n
  | None => d
  end.

(** Truthiness of a possibly absent boolean. *)
Definition truthy_bool (o : option bool) : bool :=
  match o with
  | Some b => b
  | None => false
  end.

(** Relative index of [Array.prototype.slice]: a negative index counts
    from the end, and the result is clamped to [0 .. len]. *)
Definition rel_index (len i : Z) : Z :=
  if i <? 0 then Z.max (len + i) 0 else Z.min i len.

(** [l.slice(start, fin)]; [fin = None] is the one-argument call. *)
Definition slice {A} (start : Z) (fin : option Z) (l : list A) : list A :=
  let len := Z.of_nat (length l) in
  let k := rel_index len start in
  let f := match fin with
           | Some e => rel_index len e
           | None => len
           end in
  take (Z.to_nat (f - k)) (drop (Z.to_nat k) l).

(** A JavaScript [Set] of strings, in insertion order. *)
Definition has (k : string) (s : list string) : bool :=
  bool_decide (k ∈ s).

Definition add (k : string) (s : list string) : list string :=
  if has k s then s else s ++ [k].

End JS.

(** ** Event types ([src/lib/types]) *)

Inductive Side := BUY | SELL.

Module TransferEvent.
Record t := mk {
  id : option string;
  walletAddress : string;
  tokenAddress : string;
  amount : string;
  signature : option string;
  timestamp : string;
  side : Side
}.
End TransferEvent.

Module CoordinatedTrade.
Record t := mk {
  id : option string;
  tokenAddress : string;
  timestamp : option string;
  walletCount : option Z;
  wallets : list string;
  timeWindowSeconds : Z;
  pattern : string;
  windowStart : option string;
  windowEnd : option string;
  triggeredAt : option string;
  uniqueWalletCount : option Z
}.
End CoordinatedTrade.

#[global] Instance Side_eq_dec : EqDecision Side.
Proof. solve_decision. Defined.

#[global] Instance TransferEvent_eq_dec : EqDecision TransferEvent.t.
Proof. solve_decision. Defined.

#[global] Instance CoordinatedTrade_eq_dec : EqDecision CoordinatedTrade.t.
Proof. solve_decision. Defined.

(** [getTradeTimestamp]: [trade.timestamp || trade.triggeredAt ||
    new Date().toISOString()]; [now] is the clock reading. *)
Definition getTradeTimestamp (now : string) (trade : CoordinatedTrade.t) : string :=
  if JS.truthy (CoordinatedTrade.timestamp trade) then
    JS.interpolate (CoordinatedTrade.timestamp trade)
  else if JS.truthy (CoordinatedTrade.triggeredAt trade) then
    JS.interpolate (CoordinatedTrade.triggeredAt trade)
  else now.

(** [getWalletCount]: [trade.walletCount ?? trade.uniqueWalletCount ?? 0]. *)
Definition getWalletCount (trade : CoordinatedTrade.t) : Z :=
  match CoordinatedTrade.walletCount trade with
  | Some n => n
  | None =>
      match CoordinatedTrade.uniqueWalletCount trade with
      | Some n => n
      | None => 0
      end
  end.

(** ** Parsed frame payloads

    The value [JSON.parse] returns.  Numbers are integers here. *)

Inductive json :=
  | JNull
  | JBool (b : bool)
  | JNum (n : Z)
  | JStr (s : string)
  | JArr (items : list json)
  | JObj (fields : list (string * json)).

(** ** Connection status and effects *)

Inductive SSEStatus := connecting | connected | disconnected | error.

#[global] Instance SSEStatus_eq_dec : EqDecision SSEStatus.
Proof. solve_decision. Defined.

Inductive EventKind := KTransfer | KCoordinated.

(** What the code does to its environment: console output, sounds,
    toasts, timers, calls of the status setter of a hook, and calls of the
    callbacks a hook was given. *)
Inductive Effect :=
  | ConsoleLog (msg : string)
  | ConsoleError (msg : string)
  | LogReconnecting (delay attempt : Z)
  | Tone (frequency : Z)
  | ToastWarning (walletCount : Z) (tokenPrefix : string)
  | ToastSuccess (msg : string)
  | ToastError (msg description : string)
  | SetTimeout (delay : Z)
  | ClearTimeout
  | SetStatus (s : SSEStatus)
  | Call_onStatusChange (s : SSEStatus)
  | Call_onError
  | Call_onTransfer (data : json)
  | Call_onCoordinated (data : json).

(** ** The combined feed of the live page *)

Module LiveFeed.

Inductive FeedItem :=
  | transfer (data : TransferEvent.t)
  | coordinated (data : CoordinatedTrade.t).

Definition MAX_FEED_ITEMS : Z := 500.

Record Page := mkPage {
  feedItems : list FeedItem;
  isPaused : bool;
  soundEnabled : bool
}.

Definition kind (item : FeedItem) : EventKind :=
  match item with
  | transfer _ => KTransfer
  | coordinated _ => KCoordinated
  end.

(** [`${data.tokenAddress}-${data.triggeredAt}`] *)
Definition tradeKey (d : CoordinatedTrade.t) : string :=
  CoordinatedTrade.tokenAddress d +:+ "-" +:+
  JS.interpolate (CoordinatedTrade.triggeredAt d).

Definition isDuplicateCoordinated (d : CoordinatedTrade.t) (prev : list FeedItem) : bool :=
  existsb (fun i =>
    match i with
    | coordinated d' => String.eqb (tradeKey d') (tradeKey d)
    | transfer _ => false
    end) prev.

Definition isDuplicateTransfer (d : TransferEvent.t) (prev : list FeedItem) : bool :=
  existsb (fun i =>
    match i with
    | transfer d' =>
        bool_decide (TransferEvent.signature d' = TransferEvent.signature d)
    | coordinated _ => false
    end) prev.

(** The updater function handed to [setFeedItems]. *)
Definition admitItem (item : FeedItem) (prev : list FeedItem) : list FeedItem :=
  if match item with
     | coordinated d => isDuplicateCoordinated d prev
     | transfer _ => false
     end
  then prev
  else if match item with
          | transfer d =>
              JS.truthy (TransferEvent.signature d) && isDuplicateTransfer d prev
          | coordinated _ => false
          end
  then prev
  else JS.slice 0 (Some MAX_FEED_ITEMS) (item :: prev).

(** The console line of the duplicate-coordinated branch. *)
Definition duplicateLog (item : FeedItem) (prev : list FeedItem) : list Effect :=
  match item with
  | coordinated d =>
      if isDuplicateCoordinated d prev
      then [ConsoleLog ("[LiveFeed] Duplicate coordinated trade ignored: " +:+ tradeKey d)]
      else []
  | transfer _ => []
  end.

(** [playNotificationSound]: a short sine tone; when the platform has no
    Web Audio ([audio = false]) the exception is swallowed. *)
Definition playNotificationSound (audio : bool) (type : EventKind) : list Effect :=
  if audio
  then [Tone (match type with KCoordinated => 880 | KTransfer => 440 end)]
  else [].

Definition addFeedItem (audio : bool) (item : FeedItem) (p : Page) : Page * list Effect :=
  (mkPage (admitItem item (feedItems p)) (isPaused p) (soundEnabled p),
   duplicateLog item (feedItems p) ++
   (if soundEnabled p then playNotificationSound audio (kind item) else [])).

(** The callbacks handed to the three stream hooks. *)
Definition onTransfer (audio : bool) (event : TransferEvent.t) (p : Page) : Page * list Effect :=
  if negb (isPaused p) then addFeedItem audio (transfer event) p else (p, []).

Definition onCoordinated (audio : bool) (event : CoordinatedTrade.t) (p : Page) : Page * list Effect :=
  if negb (isPaused p) then addFeedItem audio (coordinated event) p else (p, []).

Definition clearFeed (p : Page) : Page * list Effect :=
  (mkPage [] (isPaused p) (soundEnabled p), [ToastSuccess "Feed cleared"]).

Definition initial : Page := mkPage [] false false.

(** Admission of a sequence of items, first arrival first. *)
Definition admitAll (items : list FeedItem) (prev : list FeedItem) : list FeedItem :=
  foldl (fun buf item => admitItem item buf) prev items.

End LiveFeed.

(** ** The two mini-feeds of the dashboard page *)

Module Dashboard.

Definition MAX_LIVE_TRANSFERS : Z := 50.
Definition MAX_LIVE_COORDINATED : Z := 20.

Record DatabaseStats := mkStats {
  transferCount : Z;
  coordinatedCount : Z
}.

Record Page := mkPage {
  recentTransfers : list TransferEvent.t;
  recentCoordinated : list CoordinatedTrade.t;
  seenCoordinated : list string;
  stats : DatabaseStats;
  isPaused : bool
}.

Definition initial : Page := mkPage [] [] [] (mkStats 0 0) false.

Definition handleTransfer (data : TransferEvent.t) (p : Page) : Page * list Effect :=
  if isPaused p then (p, [])
  else
    (mkPage
       (data :: JS.slice 0 (Some (MAX_LIVE_TRANSFERS - 1)) (recentTransfers p))
       (recentCoordinated p)
       (seenCoordinated p)
       (mkStats (transferCount (stats p) + 1) (coordinatedCount (stats p)))
       (isPaused p),
     []).

(** [`${data.tokenAddress}-${getTradeTimestamp(data)}`] *)
Definition tradeKey (now : string) (data : CoordinatedTrade.t) : string :=
  CoordinatedTrade.tokenAddress data +:+ "-" +:+ getTradeTimestamp now data.

(** The cleanup of the key memory after an insertion. *)
Definition prune (seen : list string) : list string :=
  if 100 <? Z.of_nat (length seen)
  then JS.slice (-50) None seen
  else seen.

Definition handleCoordinated (now : string) (data : CoordinatedTrade.t) (p : Page)
  : Page * list Effect :=
  if isPaused p then (p, [])
  else
    let key := tradeKey now data in
    if JS.has key (seenCoordinated p) then (p, [])
    else
      (mkPage
         (recentTransfers p)
         (data :: JS.slice 0 (Some (MAX_LIVE_COORDINATED - 1)) (recentCoordinated p))
         (prune (JS.add key (seenCoordinated p)))
         (mkStats (transferCount (stats p)) (coordinatedCount (stats p) + 1))
         (isPaused p),
       [ToastWarning (getWalletCount data)
          (String.substring 0 8 (CoordinatedTrade.tokenAddress data))]).

Definition handleClearLive (p : Page) : Page * list Effect :=
  (mkPage [] [] (seenCoordinated p) (stats p) (isPaused p),
   [ToastSuccess "Live feed cleared"]).

Definition setIsPaused (b : bool) (p : Page) : Page :=
  mkPage (recentTransfers p) (recentCoordinated p) (seenCoordinated p) (stats p) b.

(** What can happen to the page. *)
Inductive Action :=
  | Transfer (data : TransferEvent.t)
  | Coordinated (now : string) (data : CoordinatedTrade.t)
  | ClearLive
  | TogglePause.

Definition step (p : Page) (a : Action) : Page :=
  match a with
  | Transfer data => (handleTransfer data p).1
  | Coordinated now data => (handleCoordinated now data p).1
  | ClearLive => (handleClearLive p).1
  | TogglePause => setIsPaused (negb (isPaused p)) p
  end.

Definition run (acts : list Action) (p : Page) : Page := foldl step p acts.

End Dashboard.

(** ** The stream hooks ([src/lib/hooks/useSSE.ts]) *)

Module SSE.

Record SSEOptions := mkOptions {
  enabled : option bool;
  autoReconnect : option bool;
  reconnectDelay : option Z;
  maxReconnectAttempts : option Z;
  url : option string
}.

Definition DEFAULT_OPTIONS : SSEOptions :=
  mkOptions (Some true) (Some true) (Some 5000) (Some 10) None.

(** No option given: [options = {}]. *)
Definition no_options : SSEOptions := mkOptions None None None None None.

(** One property of [{ ...a, ...b }]. *)
Definition over {A} (a b : option A) : option A :=
  match b with
  | Some v => Some v
  | None => a
  end.

(** [{ ...a, ...b }] *)
Definition spread (a b : SSEOptions) : SSEOptions :=
  mkOptions
    (over (enabled a) (enabled b))
    (over (autoReconnect a) (autoReconnect b))
    (over (reconnectDelay a) (reconnectDelay b))
    (over (maxReconnectAttempts a) (maxReconnectAttempts b))
    (over (url a) (url b)).

(** Which callbacks the caller of [useSSE] registered. *)
Record SSECallbacks := mkCallbacks {
  onTransfer : bool;
  onCoordinated : bool;
  onError : bool;
  onStatusChange : bool
}.

(** An [EventSource] object. *)
Record EventSource := mkSource {
  source_url : string;
  closed : bool
}.

(** The refs and state of one hook instance.  [sources] is the store of
    every [EventSource] the hook created, indexed by creation order;
    [eventSourceRef] designates one of them.  [reconnectTimeoutRef]
    holds the delay of the timeout it designates. *)
Record Hook := mkHook {
  sources : list EventSource;
  eventSourceRef : option nat;
  reconnectAttempts : Z;
  reconnectTimeoutRef : option Z;
  callbacksRef : SSECallbacks;
  optsRef : SSEOptions;
  status : SSEStatus;
  lastEvent : option Z
}.

(** The hook as first rendered with the caller's [options]. *)
Definition mount (callbacks : SSECallbacks) (options : SSEOptions) : Hook :=
  mkHook [] None 0 None callbacks (spread DEFAULT_OPTIONS options) disconnected None.

(** *** Statements: state transformers that also emit effects *)

Definition Stmt := Hook -> Hook * list Effect.

Definition skip : Stmt := fun h => (h, []).

Definition seq (a b : Stmt) : Stmt :=
  fun h =>
    let (h1, e1) := a h in
    let (h2, e2) := b h1 in
    (h2, e1 ++ e2).

Definition emit (e : Effect) : Stmt := fun h => (h, [e]).

Definition modify (f : Hook -> Hook) : Stmt := fun h => (f h, []).

Definition cond (c : Hook -> bool) (a b : Stmt) : Stmt :=
  fun h => if c h then a h else b h.

Declare Scope stmt_scope.
Notation "a ;; b" := (seq a b)
  (at level 100, b at level 200, right associativity) : stmt_scope.
Local Open Scope stmt_scope.

Definition set_sources v h :=
  mkHook v (eventSourceRef h) (reconnectAttempts h) (reconnectTimeoutRef h)
    (callbacksRef h) (optsRef h) (status h) (lastEvent h).
Definition set_eventSourceRef v h :=
  mkHook (sources h) v (reconnectAttempts h) (reconnectTimeoutRef h)
    (callbacksRef h) (optsRef h) (status h) (lastEvent h).
Definition set_reconnectAttempts v h :=
  mkHook (sources h) (eventSourceRef h) v (reconnectTimeoutRef h)
    (callbacksRef h) (optsRef h) (status h) (lastEvent h).
Definition set_reconnectTimeoutRef v h :=
  mkHook (sources h) (eventSourceRef h) (reconnectAttempts h) v
    (callbacksRef h) (optsRef h) (status h) (lastEvent h).
Definition set_optsRef v h :=
  mkHook (sources h) (eventSourceRef h) (reconnectAttempts h) (reconnectTimeoutRef h)
    (callbacksRef h) v (status h) (lastEvent h).
Definition set_status v h :=
  mkHook (sources h) (eventSourceRef h) (reconnectAttempts h) (reconnectTimeoutRef h)
    (callbacksRef h) (optsRef h) v (lastEvent h).
Definition setLastEvent v h :=
  mkHook (sources h) (eventSourceRef h) (reconnectAttempts h) (reconnectTimeoutRef h)
    (callbacksRef h) (optsRef h) (status h) v.

(** The state setter [setStatus]. *)
Definition setStatus (s : SSEStatus) : Stmt :=
  modify (set_status s) ;; emit (SetStatus s).

(** [es.close()] on the source numbered [es]. *)
Definition close (es : nat) : Stmt :=
  modify (fun h =>
    set_sources (alter (fun s => mkSource (source_url s) true) es (sources h)) h).

Definition is_open (es : nat) (h : Hook) : bool :=
  match sources h !! es with
  | Some s => negb (closed s)
  | None => false
  end.

(** [if (reconnectTimeoutRef.current) { clearTimeout(...); ... = null }] *)
Definition clearReconnectTimeout : Stmt :=
  cond (fun h => bool_decide (is_Some (reconnectTimeoutRef h)))
    (emit ClearTimeout ;; modify (set_reconnectTimeoutRef None))
    skip.

(** [new EventSource(url)], stored in [eventSourceRef]. *)
Definition newEventSource (u : string) : Stmt :=
  modify (fun h =>
    set_eventSourceRef (Some (length (sources h)))
      (set_sources (sources h ++ [mkSource u false]) h)).

(** [opts.url || process.env.X || fallback] *)
Definition resolve_url (h : Hook) (env : option string) (fallback : string) : string :=
  if JS.truthy (url (optsRef h)) then JS.interpolate (url (optsRef h))
  else if JS.truthy env then JS.interpolate env
  else fallback.

Definition maxAttempts (h : Hook) : Z :=
  JS.or_num (maxReconnectAttempts (optsRef h)) 10.

Definition delay (h : Hook) : Z :=
  JS.or_num (reconnectDelay (optsRef h)) 5000.

Definition may_retry (h : Hook) : bool :=
  JS.truthy_bool (autoReconnect (optsRef h)) && (reconnectAttempts h <? maxAttempts h).

(** [for (const x of v)]: arrays and strings are iterable, anything else
    raises a [TypeError]. *)
Definition iterate (v : json) : option (list json) :=
  match v with
  | JArr items => Some items
  | JStr s => Some ((fun c => JStr (String c EmptyString)) <$> String.list_ascii_of_string s)
  | _ => None
  end.

(** *** [useSSE] *)

Module UseSSE.

Definition updateStatus (newStatus : SSEStatus) : Stmt :=
  setStatus newStatus ;;
  cond (fun h => onStatusChange (callbacksRef h))
    (emit (Call_onStatusChange newStatus)) skip.

Definition closeExisting : Stmt :=
  fun h =>
    match eventSourceRef h with
    | Some es => close es h
    | None => (h, [])
    end.

Definition connect (env : option string) : Stmt :=
  fun h =>
    (clearReconnectTimeout ;;
     closeExisting ;;
     updateStatus connecting ;;
     newEventSource (resolve_url h env "https://helius.sarislabs.com/stream/all")) h.

Definition onopen : Stmt :=
  emit (ConsoleLog "[SSE] Connected to stream") ;;
  modify (set_reconnectAttempts 0) ;;
  updateStatus connected.

Section Listeners.
Variable JSON_parse : string -> option json.

(** The listener of the named event [transfers]. *)
Definition on_transfers (now : Z) (data : string) : Stmt :=
  fun h =>
    match JSON_parse data with
    | None => (h, [ConsoleError "[SSE] Failed to parse transfers event:"])
    | Some arr =>
        (modify (setLastEvent (Some now)) ;;
         fun h =>
           match iterate arr with
           | Some items =>
               (h, if onTransfer (callbacksRef h)
                   then Call_onTransfer <$> items else [])
           | None => (h, [ConsoleError "[SSE] Failed to parse transfers event:"])
           end) h
    end.

(** The listener of the named event [coordinated]. *)
Definition on_coordinated (now : Z) (data : string) : Stmt :=
  fun h =>
    match JSON_parse data with
    | None => (h, [ConsoleError "[SSE] Failed to parse coordinated event:"])
    | Some v =>
        (modify (setLastEvent (Some now)) ;;
         cond (fun h => onCoordinated (callbacksRef h))
           (emit (Call_onCoordinated v)) skip) h
    end.
End Listeners.

Definition on_heartbeat (now : Z) : Stmt :=
  modify (setLastEvent (Some now)).

(** [eventSource.onerror] of the source numbered [es]. *)
Definition onerror (es : nat) : Stmt :=
  emit (ConsoleError "[SSE] Connection error") ;;
  updateStatus error ;;
  cond (fun h => onError (callbacksRef h)) (emit Call_onError) skip ;;
  close es ;;
  cond may_retry
    (modify (fun h => set_reconnectAttempts (reconnectAttempts h + 1) h) ;;
     (fun h => emit (LogReconnecting (delay h) (reconnectAttempts h)) h) ;;
     (fun h => (modify (set_reconnectTimeoutRef (Some (delay h))) ;;
                emit (SetTimeout (delay h))) h))
    (cond (fun h => maxAttempts h <=? reconnectAttempts h)
       (emit (ConsoleError "[SSE] Max reconnect attempts reached") ;;
        updateStatus disconnected)
       skip).

Definition disconnect : Stmt :=
  clearReconnectTimeout ;;
  (fun h =>
     match eventSourceRef h with
     | Some es => (close es ;; modify (set_eventSourceRef None)) h
     | None => (h, [])
     end) ;;
  modify (set_reconnectAttempts 0) ;;
  updateStatus disconnected ;;
  emit (ConsoleLog "[SSE] Disconnected from stream").

(** The effect of [useEffect] when [opts.enabled] is evaluated. *)
Definition onEnabledChange (env : option string) : Stmt :=
  cond (fun h => JS.truthy_bool (enabled (optsRef h))) (connect env) disconnect.

End UseSSE.

(** *** [useTransferStream] *)

Module UseTransferStream.

Definition closeExisting : Stmt :=
  fun h =>
    match eventSourceRef h with
    | Some es => close es h
    | None => (h, [])
    end.

Definition connect (env : option string) : Stmt :=
  fun h =>
    (clearReconnectTimeout ;;
     closeExisting ;;
     setStatus connecting ;;
     newEventSource (resolve_url h env "https://helius.sarislabs.com/stream/transfers")) h.

Definition onopen : Stmt :=
  emit (ConsoleLog "[SSE] Connected to transfers stream") ;;
  modify (set_reconnectAttempts 0) ;;
  setStatus connected.

Section Listeners.
Variable JSON_parse : string -> option json.

(** [eventSource.onmessage]: an array or a single object. *)
Definition onmessage (data : string) : Stmt :=
  fun h =>
    match JSON_parse data with
    | None => (h, [ConsoleError "[SSE] Failed to parse transfers:"])
    | Some (JArr items) => (h, Call_onTransfer <$> items)
    | Some v => (h, [Call_onTransfer v])
    end.
End Listeners.

(** [eventSource.onerror] of the source numbered [es]. *)
Definition onerror (es : nat) : Stmt :=
  emit (ConsoleError "[SSE] Transfers stream error") ;;
  setStatus error ;;
  close es ;;
  cond may_retry
    (modify (fun h => set_reconnectAttempts (reconnectAttempts h + 1) h) ;;
     (fun h => (modify (set_reconnectTimeoutRef (Some (delay h))) ;;
                emit (SetTimeout (delay h))) h))
    (setStatus disconnected).

Definition disconnect : Stmt :=
  clearReconnectTimeout ;;
  (fun h =>
     match eventSourceRef h with
     | Some es => (close es ;; modify (set_eventSourceRef None)) h
     | None => (h, [])
     end) ;;
  setStatus disconnected.

Definition onEnabledChange (env : option string) : Stmt :=
  cond (fun h => JS.truthy_bool (enabled (optsRef h))) (connect env) disconnect.

End UseTransferStream.

(** *** [useCoordinatedStream] *)

Module UseCoordinatedStream.

Definition closeExisting : Stmt :=
  fun h =>
    match eventSourceRef h with
    | Some es => close es h
    | None => (h, [])
    end.

Definition connect (env : option string) : Stmt :=
  fun h =>
    (clearReconnectTimeout ;;
     closeExisting ;;
     setStatus connecting ;;
     newEventSource (resolve_url h env "https://helius.sarislabs.com/stream/coordinated")) h.

Definition onopen : Stmt :=
  emit (ConsoleLog "[SSE] Connected to coordinated stream") ;;
  modify (set_reconnectAttempts 0) ;;
  setStatus connected.

Section Listeners.
Variable JSON_parse : string -> option json.

(** [eventSource.onmessage]: a single object. *)
Definition onmessage (data : string) : Stmt :=
  fun h =>
    match JSON_parse data with
    | None => (h, [ConsoleError "[SSE] Failed to parse coordinated:"])
    | Some v => (h, [Call_onCoordinated v])
    end.
End Listeners.

(** [eventSource.onerror] of the source numbered [es]. *)
Definition onerror (es : nat) : Stmt :=
  emit (ConsoleError "[SSE] Coordinated stream error") ;;
  setStatus error ;;
  close es ;;
  cond may_retry
    (modify (fun h => set_reconnectAttempts (reconnectAttempts h + 1) h) ;;
     (fun h => (modify (set_reconnectTimeoutRef (Some (delay h))) ;;
                emit (SetTimeout (delay h))) h))
    (setStatus disconnected).

Definition disconnect : Stmt :=
  clearReconnectTimeout ;;
  (fun h =>
     match eventSourceRef h with
     | Some es => (close es ;; modify (set_eventSourceRef None)) h
     | None => (h, [])
     end) ;;
  setStatus disconnected.

Definition onEnabledChange (env : option string) : Stmt :=
  cond (fun h => JS.truthy_bool (enabled (optsRef h))) (connect env) disconnect.

End UseCoordinatedStream.

End SSE.

(** ** A reader for JSON text

    [JSON.parse] belongs to the platform; the listeners above take it as
    a parameter.  This reader covers the part of the JSON grammar without
    escapes, fractions and exponents, and is the instance used to run the
    listeners on concrete frames.  [None] stands for the [SyntaxError]. *)

Module JsonText.

Local Open Scope char_scope.

(** The double quote. *)
Definition dquote : ascii := Ascii.ascii_of_nat 34.

Definition is_ws (c : ascii) : bool :=
  bool_decide (c = " ") || bool_decide (c = "009") ||
  bool_decide (c = "010") || bool_decide (c = "013").

Fixpoint skip_ws (s : list ascii) : list ascii :=
  match s with
  | c :: r => if is_ws c then skip_ws r else s
  | [] => []
  end.

Definition is_digit (c : ascii) : bool :=
  let n := Ascii.nat_of_ascii c in
  (Nat.leb 48 n && Nat.leb n 57)%bool.

Fixpoint digits (acc : Z) (s : list ascii) : Z * list ascii :=
  match s with
  | c :: r =>
      if is_digit c
      then digits (10 * acc + Z.of_nat (Ascii.nat_of_ascii c - 48)) r
      else (acc, s)
  | [] => (acc, [])
  end.

Definition number (s : list ascii) : option (Z * list ascii) :=
  match s with
  | c :: _ => if is_digit c then Some (digits 0 s) else None
  | [] => None
  end.

(** The characters of a string literal up to its closing quote. *)
Fixpoint string_body (s : list ascii) : option (string * list ascii) :=
  match s with
  | [] => None
  | c :: r =>
      if bool_decide (c = dquote) then Some (EmptyString, r)
      else if bool_decide (c = "\") then None
      else match string_body r with
           | Some (t, r') => Some (String c t, r')
           | None => None
           end
  end.

Fixpoint keyword (k s : list ascii) : option (list ascii) :=
  match k, s with
  | [], _ => Some s
  | a :: k', b :: s' => if bool_decide (a = b) then keyword k' s' else None
  | _ :: _, [] => None
  end.

Section Compound.
Variable value : list ascii -> option (json * list ascii).

Fixpoint elements (n : nat) (s : list ascii) : option (list json * list ascii) :=
  match n with
  | O => None
  | S n' =>
      match value s with
      | None => None
      | Some (v, r) =>
          match skip_ws r with
          | "," :: r' =>
              match elements n' r' with
              | Some (vs, r'') => Some (v :: vs, r'')
              | None => None
              end
          | "]" :: r' => Some ([v], r')
          | _ => None
          end
      end
  end.

Fixpoint members (n : nat) (s : list ascii)
  : option (list (string * json) * list ascii) :=
  match n with
  | O => None
  | S n' =>
      match skip_ws s with
      | c :: r =>
          if bool_decide (c = dquote) then
            match string_body r with
            | None => None
            | Some (k, r1) =>
                match skip_ws r1 with
                | ":" :: r2 =>
                    match value r2 with
                    | None => None
                    | Some (v, r3) =>
                        match skip_ws r3 with
                        | "," :: r4 =>
                            match members n' r4 with
                            | Some (ms, r5) => Some ((k, v) :: ms, r5)
                            | None => None
                            end
                        | "}" :: r4 => Some ([(k, v)], r4)
                        | _ => None
                        end
                    end
                | _ => None
                end
            end
          else None
      | [] => None
      end
  end.
End Compound.

Fixpoint value (fuel : nat) (s : list ascii) : option (json * list ascii) :=
  match fuel with
  | O => None
  | S fuel' =>
      match skip_ws s with
      | "n" :: r => (fun r' => (JNull, r')) <$> keyword ["u"; "l"; "l"] r
      | "t" :: r => (fun r' => (JBool true, r')) <$> keyword ["r"; "u"; "e"] r
      | "f" :: r => (fun r' => (JBool false, r')) <$> keyword ["a"; "l"; "s"; "e"] r
      | "-" :: r => (fun '(n, r') => (JNum (- n), r')) <$> number r
      | "[" :: r =>
          match skip_ws r with
          | "]" :: r' => Some (JArr [], r')
          | r0 => (fun '(vs, r') => (JArr vs, r')) <$> elements (value fuel') (length r0) r0
          end
      | "{" :: r =>
          match skip_ws r with
          | "}" :: r' => Some (JObj [], r')
          | r0 => (fun '(ms, r') => (JObj ms, r')) <$> members (value fuel') (length r0) r0
          end
      | c :: r =>
          if bool_decide (c = dquote)
          then (fun '(t, r') => (JStr t, r')) <$> string_body r
          else (fun '(n, r') => (JNum n, r')) <$> number (c :: r)
      | [] => None
      end
  end.

Definition parse (text : string) : option json :=
  let s := String.list_ascii_of_string text in
  match value (S (length s)) s with
  | Some (v, r) =>
      match skip_ws r with
      | [] => Some v
      | _ :: _ => None
      end
  | None => None
  end.

End JsonText.

(** ** From parsed payloads to the pages

    The hooks hand parsed values to the callbacks unchecked ([as
    TransferEvent]); the pages then read the properties they need.  The
    two views below read the declared properties of a payload of the
    declared shape. *)

Module Wiring.

(** [v.k]: with a repeated key the last member wins. *)
Definition prop (k : string) (v : json) : option json :=
  match v with
  | JObj fields =>
      foldl (fun acc m => if String.eqb (fst m) k then Some (snd m) else acc) None fields
  | _ => None
  end.

Definition str_prop (k : string) (v : json) : option string :=
  match prop k v with
  | Some (JStr s) => Some s
  | _ => None
  end.

Definition num_prop (k : string) (v : json) : option Z :=
  match prop k v with
  | Some (JNum n) => Some n
  | _ => None
  end.

Definition str_list_prop (k : string) (v : json) : list string :=
  match prop k v with
  | Some (JArr items) =>
      omap (fun i => match i with JStr s => Some s | _ => None end) items
  | _ => []
  end.

Definition asTransferEvent (v : json) : TransferEvent.t :=
  TransferEvent.mk
    (str_prop "id" v)
    (default "" (str_prop "walletAddress" v))
    (default "" (str_prop "tokenAddress" v))
    (default "" (str_prop "amount" v))
    (str_prop "signature" v)
    (default "" (str_prop "timestamp" v))
    (if bool_decide (str_prop "side" v = Some "SELL") then SELL else BUY).

Definition asCoordinatedTrade (v : json) : CoordinatedTrade.t :=
  CoordinatedTrade.mk
    (str_prop "id" v)
    (default "" (str_prop "tokenAddress" v))
    (str_prop "timestamp" v)
    (num_prop "walletCount" v)
    (str_list_prop "wallets" v)
    (default 0 (num_prop "timeWindowSeconds" v))
    (default "" (str_prop "pattern" v))
    (str_prop "windowStart" v)
    (str_prop "windowEnd" v)
    (str_prop "triggeredAt" v)
    (num_prop "uniqueWalletCount" v).

(** Running the callbacks a hook called, in order, on a page. *)
Section Deliver.
Context {Page : Type}.
Variable callback : Effect -> Page -> Page * list Effect.

Definition deliver (effs : list Effect) (p : Page) : Page * list Effect :=
  foldl (fun acc e =>
           let (p', out) := callback e acc.1 in
           (p', acc.2 ++ out))
        (p, []) effs.
End Deliver.

(** The callbacks of the dashboard page; [now] is the clock reading. *)
Definition dashboard (now : string) (e : Effect) (p : Dashboard.Page)
  : Dashboard.Page * list Effect :=
  match e with
  | Call_onTransfer v => Dashboard.handleTransfer (asTransferEvent v) p
  | Call_onCoordinated v => Dashboard.handleCoordinated now (asCoordinatedTrade v) p
  | Call_onError => (p, [ToastError "Connection lost" "Attempting to reconnect..."])
  | _ => (p, [])
  end.

(** The callbacks of the live page. *)
Definition live (audio : bool) (e : Effect) (p : LiveFeed.Page)
  : LiveFeed.Page * list Effect :=
  match e with
  | Call_onTransfer v => LiveFeed.onTransfer audio (asTransferEvent v) p
  | Call_onCoordinated v => LiveFeed.onCoordinated audio (asCoordinatedTrade v) p
  | _ => (p, [])
  end.

End Wiring.

(** [q s] is [s] between double quotes. *)
Definition q (s : string) : string :=
  String JsonText.dquote (s +:+ String JsonText.dquote EmptyString).

(** * Vocabulary of the statements *)

(** The instant the dashboard reads from a trade, when the trade carries
    one: [timestamp || triggeredAt] without the clock fallback. *)
Definition instant (d : CoordinatedTrade.t) : option string :=
  if JS.truthy (CoordinatedTrade.timestamp d) then CoordinatedTrade.timestamp d
  else if JS.truthy (CoordinatedTrade.triggeredAt d) then CoordinatedTrade.triggeredAt d
  else None.

(** [ks] lists, entry by entry, a key under which each buffered trade was
    admitted. *)
Definition keyed (buf : list CoordinatedTrade.t) (ks : list string) : Prop :=
  Forall2 (fun d k => exists now, Dashboard.tradeKey now d = k) buf ks.

(** The keys of the buffered trades are the most recent entries of the
    key memory. *)
Definition remembers (p : Dashboard.Page) : Prop :=
  exists ks,
    keyed (Dashboard.recentCoordinated p) ks /\
    reverse ks `suffix_of` Dashboard.seenCoordinated p.

(** Running a statement for its state, and for its effects. *)
Definition after (s : SSE.Stmt) (h : SSE.Hook) : SSE.Hook := (s h).1.
Definition effects (s : SSE.Stmt) (h : SSE.Hook) : list Effect := (s h).2.

(** No timeout is requested in a list of effects. *)
Definition no_timeout (effs : list Effect) : Prop :=
  forall d, SetTimeout d ∉ effs.

(** A caller that registered every callback. *)
Definition all_callbacks : SSE.SSECallbacks := SSE.mkCallbacks true true true true.

(** [useSSE] with [options], connected: mounted, [connect] called, the
    source opened. *)
Definition useSSE_connected (options : SSE.SSEOptions) : SSE.Hook :=
  after SSE.UseSSE.onopen
    (after (SSE.UseSSE.connect None) (SSE.mount all_callbacks options)).

Definition useTransferStream_connected (options : SSE.SSEOptions) : SSE.Hook :=
  after SSE.UseTransferStream.onopen
    (after (SSE.UseTransferStream.connect None) (SSE.mount all_callbacks options)).

(** The reconnect timeout fires: its callback is [connect]. *)
Definition useSSE_timer_fires (h : SSE.Hook) : SSE.Hook :=
  match SSE.reconnectTimeoutRef h with
  | Some _ => after (SSE.UseSSE.connect None) h
  | None => h
  end.

(** The source [eventSourceRef] designates. *)
Definition current_source (h : SSE.Hook) : nat :=
  default O (SSE.eventSourceRef h).

(** The caller's options with [autoReconnect: false]. *)
Definition no_autoReconnect : SSE.SSEOptions :=
  SSE.mkOptions None (Some false) None None None.

(** The caller's options with [maxReconnectAttempts: n]. *)
Definition max_attempts (n : Z) : SSE.SSEOptions :=
  SSE.mkOptions None None None (Some n) None.

(** The options [o] with [maxReconnectAttempts: n], and with
    [reconnectDelay: n]. *)
Definition with_max (n : Z) (o : SSE.SSEOptions) : SSE.SSEOptions :=
  SSE.mkOptions (SSE.enabled o) (SSE.autoReconnect o) (SSE.reconnectDelay o)
    (Some n) (SSE.url o).

Definition with_delay (n : Z) (o : SSE.SSEOptions) : SSE.SSEOptions :=
  SSE.mkOptions (SSE.enabled o) (SSE.autoReconnect o) (Some n)
    (SSE.maxReconnectAttempts o) (SSE.url o).

(** A render of the hook with the caller's [options]:
    [optsRef.current = { ...DEFAULT_OPTIONS, ...options }]. *)
Definition render (options : SSE.SSEOptions) (h : SSE.Hook) : SSE.Hook :=
  SSE.set_optsRef (SSE.spread SSE.DEFAULT_OPTIONS options) h.

(** Two runs of an error handler agree on the effects and on everything
    in the resulting state but the options themselves. *)
Definition same_behaviour (onerror : SSE.Stmt) (h1 h2 : SSE.Hook) : Prop :=
  effects onerror h1 = effects onerror h2 /\
  SSE.set_optsRef (SSE.optsRef h2) (after onerror h1) = after onerror h2.

(** The error handlers of the three hooks. *)
Definition error_handlers (es : nat) : list SSE.Stmt :=
  [SSE.UseSSE.onerror es; SSE.UseTransferStream.onerror es;
   SSE.UseCoordinatedStream.onerror es].

(** The outcome of a listener that dropped its frame: the hook is as it
    was, the only effect is one console error, and running the callbacks
    called (there are none) leaves the dashboard page and the live page as
    they were. *)
Definition dropped (h : SSE.Hook) (r : SSE.Hook * list Effect) : Prop :=
  r.1 = h /\
  (exists msg, r.2 = [ConsoleError msg]) /\
  (forall e, e ∈ r.2 ->
     match e with
     | Call_onTransfer _ | Call_onCoordinated _ | Call_onError
     | Call_onStatusChange _ => False
     | _ => True
     end) /\
  (forall now p, Wiring.deliver (Wiring.dashboard now) r.2 p = (p, [])) /\
  (forall audio p, Wiring.deliver (Wiring.live audio) r.2 p = (p, [])).

(** The actions that can reach the transfer mini-feed, and those that can
    reach the coordinated mini-feed and its key memory. *)
Definition touches_transfers (a : Dashboard.Action) : bool :=
  match a with
  | Dashboard.Coordinated _ _ => false
  | _ => true
  end.

Definition touches_coordinated (a : Dashboard.Action) : bool :=
  match a with
  | Dashboard.Transfer _ => false
  | _ => true
  end.

(** Two pages that agree on the transfer list and the pause flag. *)
Definition same_transfers (p q : Dashboard.Page) : Prop :=
  Dashboard.recentTransfers p = Dashboard.recentTransfers q /\
  Dashboard.isPaused p = Dashboard.isPaused q.

(** Two pages that agree on the coordinated list, the key memory and the
    pause flag. *)
Definition same_coordinated (p q : Dashboard.Page) : Prop :=
  Dashboard.recentCoordinated p = Dashboard.recentCoordinated q /\
  Dashboard.seenCoordinated p = Dashboard.seenCoordinated q /\
  Dashboard.isPaused p = Dashboard.isPaused q.

(** Deduplication of coordinated trades read with one key for both
    pages: a trade whose token address and [key] equal those of a buffered
    trade changes neither the combined feed nor, in a state the dashboard
    can reach, the coordinated mini-feed. *)
Definition one_key_noop (key : CoordinatedTrade.t -> option string) : Prop :=
  (forall (d d' : CoordinatedTrade.t) (t : string) (prev : list LiveFeed.FeedItem),
     LiveFeed.coordinated d' ∈ prev ->
     CoordinatedTrade.tokenAddress d' = CoordinatedTrade.tokenAddress d ->
     key d' = Some t -> key d = Some t ->
     LiveFeed.admitItem (LiveFeed.coordinated d) prev = prev) /\
  (forall (acts : list Dashboard.Action) (now : string) (d d' : CoordinatedTrade.t) (t : string),
     let p := Dashboard.run acts Dashboard.initial in
     d' ∈ Dashboard.recentCoordinated p ->
     CoordinatedTrade.tokenAddress d' = CoordinatedTrade.tokenAddress d ->
     key d' = Some t -> key d = Some t ->
     Dashboard.handleCoordinated now d p = (p, [])).

(** The transfer mini-feed read as keeping a dedup set of its own: in a
    state the dashboard can reach, a transfer whose non-empty signature
    is the one of a buffered transfer leaves the list as it is. *)
Definition transfer_minifeed_dedups : Prop :=
  forall (acts : list Dashboard.Action) (d d' : TransferEvent.t),
    let p := Dashboard.run acts Dashboard.initial in
    d' ∈ Dashboard.recentTransfers p ->
    JS.truthy (TransferEvent.signature d) = true ->
    TransferEvent.signature d' = TransferEvent.signature d ->
    Dashboard.recentTransfers (Dashboard.handleTransfer d p).1 = Dashboard.recentTransfers p.

(** Sample events and arrival streams for the worked examples. *)
Definition sample_transfer (sig : option string) : TransferEvent.t :=
  TransferEvent.mk None "Wallet1" "Tok1" "1.5" sig "2024-01-01T00:00:00Z" BUY.

Definition sample_trade (tok : string) (ts trig : option string) : CoordinatedTrade.t :=
  CoordinatedTrade.mk None tok ts (Some 3) ["W1"; "W2"; "W3"] 60 "coordinated_buy"
    None None trig None.

(** [n] marks in a row, to tell the arrivals apart. *)
Fixpoint marks (n : nat) : string :=
  match n with
  | O => "S"
  | S k => String "x"%char (marks k)
  end.

(** The first [n] of a stream of transfers with distinct signatures,
    oldest first. *)
Definition arrivals (n : nat) : list TransferEvent.t :=
  (fun i => sample_transfer (Some (marks i))) <$> seq 0 n.

(** The first [n] of a stream of coordinated trades with distinct trigger
    instants, each arriving at clock reading [now]. *)
Definition trade_arrivals (n : nat) : list Dashboard.Action :=
  (fun i => Dashboard.Coordinated "now" (sample_trade "Tok1" None (Some (marks i))))
    <$> seq 0 n.

(** * The rest of the pipeline *)

(** ** The life of a hook

    What can happen to a hook between mount and unmount: the page calls
    [connect] or [disconnect], the source opens or fails, the reconnect
    timeout fires.  A source that was closed fires no event, and a
    timeout fires only while one is designated.  (Frames and heartbeats
    touch [lastEvent] only and are left out.) *)

Module Lifecycle.

(** The four entry points of a hook. *)
Record Handlers := mkHandlers {
  connect : option string -> SSE.Stmt;
  onopen : SSE.Stmt;
  onerror : nat -> SSE.Stmt;
  disconnect : SSE.Stmt
}.

Definition useSSE : Handlers :=
  mkHandlers SSE.UseSSE.connect SSE.UseSSE.onopen
    SSE.UseSSE.onerror SSE.UseSSE.disconnect.

Definition useTransferStream : Handlers :=
  mkHandlers SSE.UseTransferStream.connect SSE.UseTransferStream.onopen
    SSE.UseTransferStream.onerror SSE.UseTransferStream.disconnect.

Definition useCoordinatedStream : Handlers :=
  mkHandlers SSE.UseCoordinatedStream.connect SSE.UseCoordinatedStream.onopen
    SSE.UseCoordinatedStream.onerror SSE.UseCoordinatedStream.disconnect.

Definition hooks : list Handlers :=
  [useSSE; useTransferStream; useCoordinatedStream].

Inductive Event :=
  | Connect (env : option string)
  | Disconnect
  | Open (es : nat)
  | Error (es : nat)
  | TimerFires (env : option string).

(** A source is open: it exists in the store and was not closed. *)
Definition open_in (srcs : list SSE.EventSource) (i : nat) : bool :=
  match srcs !! i with
  | Some s => negb (SSE.closed s)
  | None => false
  end.

(** The store after [eventSourceRef.current?.close()]. *)
Definition close_ref (h : SSE.Hook) : list SSE.EventSource :=
  match SSE.eventSourceRef h with
  | Some es => alter (fun s => SSE.mkSource (SSE.source_url s) true) es (SSE.sources h)
  | None => SSE.sources h
  end.

(** The state after an event, [None] when the event cannot occur. *)
Definition fire (H : Handlers) (e : Event) (h : SSE.Hook) : option SSE.Hook :=
  match e with
  | Connect env => Some (after (connect H env) h)
  | Disconnect => Some (after (disconnect H) h)
  | Open es =>
      if SSE.is_open es h then Some (after (onopen H) h) else None
  | Error es =>
      if SSE.is_open es h then Some (after (onerror H es) h) else None
  | TimerFires env =>
      match SSE.reconnectTimeoutRef h with
      | Some _ => Some (after (connect H env) h)
      | None => None
      end
  end.

(** The states a hook mounted with [options] goes through. *)
Inductive reachable (H : Handlers) (callbacks : SSE.SSECallbacks)
    (options : SSE.SSEOptions) : SSE.Hook -> Prop :=
  | reach_mount : reachable H callbacks options (SSE.mount callbacks options)
  | reach_fire h e h' :
      reachable H callbacks options h ->
      fire H e h = Some h' ->
      reachable H callbacks options h'.

(** One failed attempt: a pending timeout fires (which reconnects), then
    the designated source fails. *)
Definition fail (h : SSE.Hook) : SSE.Hook :=
  let h' := useSSE_timer_fires h in
  after (SSE.UseSSE.onerror (current_source h')) h'.

End Lifecycle.

(** ** The three streams of the live page

    The page mounts the three hooks with [{ autoReconnect: true, enabled:
    streamType === kind }]; the effect of each hook runs again (after the
    cleanup of its previous run, which is [disconnect]) when its
    [enabled] changes. *)

Module LiveStreams.

Inductive StreamType := all | transfers | coordinated.

#[global] Instance StreamType_eq_dec : EqDecision StreamType.
Proof. solve_decision. Defined.

Record Streams := mkStreams {
  streamType : StreamType;
  allStream : SSE.Hook;
  transfersStream : SSE.Hook;
  coordinatedStream : SSE.Hook
}.

Definition handlers (k : StreamType) : Lifecycle.Handlers :=
  match k with
  | all => Lifecycle.useSSE
  | transfers => Lifecycle.useTransferStream
  | coordinated => Lifecycle.useCoordinatedStream
  end.

Definition stream (k : StreamType) (s : Streams) : SSE.Hook :=
  match k with
  | all => allStream s
  | transfers => transfersStream s
  | coordinated => coordinatedStream s
  end.

(** The options the page passes to the hook of kind [k]. *)
Definition options (selected k : StreamType) : SSE.SSEOptions :=
  SSE.mkOptions (Some (bool_decide (selected = k))) (Some true) None None None.

(** The callbacks the page passes: [useSSE] gets [onTransfer] and
    [onCoordinated]. *)
Definition callbacks : SSE.SSECallbacks := SSE.mkCallbacks true true false false.

(** The effect of the hook of kind [k]: connect when enabled, else
    disconnect. *)
Definition effect (k : StreamType) (h : SSE.Hook) : SSE.Hook :=
  if JS.truthy_bool (SSE.enabled (SSE.optsRef h))
  then after (Lifecycle.connect (handlers k) None) h
  else after (Lifecycle.disconnect (handlers k)) h.

(** First render and first run of the effects. *)
Definition mounted (k : StreamType) (selected : StreamType) : SSE.Hook :=
  effect k (SSE.mount callbacks (options selected k)).

Definition initial : Streams :=
  mkStreams all (mounted all all) (mounted transfers all) (mounted coordinated all).

(** A render with [selected]: the options ref is refreshed; when
    [enabled] changed, the cleanup runs and then the effect. *)
Definition rerender (old selected k : StreamType) (h : SSE.Hook) : SSE.Hook :=
  let h1 := render (options selected k) h in
  if bool_decide (bool_decide (old = k) = bool_decide (selected = k)) then h1
  else effect k (after (Lifecycle.disconnect (handlers k)) h1).

Definition setStreamType (selected : StreamType) (s : Streams) : Streams :=
  mkStreams selected
    (rerender (streamType s) selected all (allStream s))
    (rerender (streamType s) selected transfers (transfersStream s))
    (rerender (streamType s) selected coordinated (coordinatedStream s)).

Definition getConnectionStatus (s : Streams) : SSEStatus :=
  if bool_decide (streamType s = all) then SSE.status (allStream s)
  else if bool_decide (streamType s = transfers) then SSE.status (transfersStream s)
  else SSE.status (coordinatedStream s).

Definition set_stream (k : StreamType) (h : SSE.Hook) (s : Streams) : Streams :=
  match k with
  | all => mkStreams (streamType s) h (transfersStream s) (coordinatedStream s)
  | transfers => mkStreams (streamType s) (allStream s) h (coordinatedStream s)
  | coordinated => mkStreams (streamType s) (allStream s) (transfersStream s) h
  end.

(** What happens on the page: the user picks a stream, or the network
    does something to one of the hooks. *)
Inductive Event :=
  | Pick (selected : StreamType)
  | Network (k : StreamType) (e : Lifecycle.Event).

(** The page itself never calls [connect] or [disconnect] by hand. *)
Definition from_network (e : Lifecycle.Event) : bool :=
  match e with
  | Lifecycle.Connect _ | Lifecycle.Disconnect => false
  | _ => true
  end.

Definition fire (e : Event) (s : Streams) : option Streams :=
  match e with
  | Pick selected => Some (setStreamType selected s)
  | Network k e =>
      if from_network e then
        match Lifecycle.fire (handlers k) e (stream k s) with
        | Some h => Some (set_stream k h s)
        | None => None
        end
      else None
  end.

Inductive reachable : Streams -> Prop :=
  | reach_initial : reachable initial
  | reach_fire s e s' : reachable s -> fire e s = Some s' -> reachable s'.

End LiveStreams.

(** ** What the pages show *)

Module View.

(** The side filter of the live page. *)
Inductive FilterSide := ALL | ONLY (s : Side).

(** The predicate of [feedItems.filter] for [filteredItems]. *)
Definition passes (filterSide : FilterSide) (item : LiveFeed.FeedItem) : bool :=
  match filterSide with
  | ALL => true
  | ONLY s =>
      match item with
      | LiveFeed.transfer d => bool_decide (TransferEvent.side d = s)
      | LiveFeed.coordinated _ => true
      end
  end.

Definition filteredItems (filterSide : FilterSide) (feedItems : list LiveFeed.FeedItem)
  : list LiveFeed.FeedItem :=
  List.filter (passes filterSide) feedItems.

Definition is_transfer (i : LiveFeed.FeedItem) : bool :=
  match i with LiveFeed.transfer _ => true | LiveFeed.coordinated _ => false end.

Definition is_coordinated (i : LiveFeed.FeedItem) : bool :=
  match i with LiveFeed.coordinated _ => true | LiveFeed.transfer _ => false end.

Definition is_side (s : Side) (i : LiveFeed.FeedItem) : bool :=
  match i with
  | LiveFeed.transfer d => bool_decide (TransferEvent.side d = s)
  | LiveFeed.coordinated _ => false
  end.

(** The [stats] object of the live page. *)
Record Stats := mkStats {
  transfers : nat;
  coordinated : nat;
  buys : nat;
  sells : nat
}.

Definition stats (feedItems : list LiveFeed.FeedItem) : Stats :=
  mkStats
    (length (List.filter is_transfer feedItems))
    (length (List.filter is_coordinated feedItems))
    (length (List.filter (is_side BUY) feedItems))
    (length (List.filter (is_side SELL) feedItems)).

(** [limit ? items.slice(0, limit) : items] of [TransfersList] and
    [CoordinatedTradesList]. *)
Definition display {A} (limit : option Z) (items : list A) : list A :=
  match limit with
  | None | Some 0 => items
  | Some n => JS.slice 0 (Some n) items
  end.

End View.

(** ** Formatting helpers ([src/lib/utils.ts]) *)

Module Utils.

(** [s.slice(start, fin)] on a string. *)
Definition str_slice (start : Z) (fin : option Z) (s : string) : string :=
  String.string_of_list_ascii (JS.slice start fin (String.list_ascii_of_string s)).

Definition str_length (s : string) : Z := Z.of_nat (String.length s).

Definition truncateAddress (address : string) (startChars endChars : Z) : string :=
  if String.eqb address "" then ""
  else if str_length address <=? startChars + endChars then address
  else str_slice 0 (Some startChars) address +:+ "..." +:+
       str_slice (- endChars) None address.

(** A number interpolated in a template literal (integers). *)
Definition show (n : Z) : string :=
  DecimalString.NilZero.string_of_int (Z.to_int n).

(** [formatTimeAgo]; [now] and [past] are the two [getTime()] readings,
    in milliseconds. *)
Definition formatTimeAgo (now past : Z) : string :=
  let diffInSeconds := (now - past) / 1000 in
  if diffInSeconds <? 5 then "just now"
  else if diffInSeconds <? 60 then show diffInSeconds +:+ "s ago"
  else
    let diffInMinutes := diffInSeconds / 60 in
    if diffInMinutes <? 60 then show diffInMinutes +:+ "m ago"
    else
      let diffInHours := diffInMinutes / 60 in
      if diffInHours <? 24 then show diffInHours +:+ "h ago"
      else
        let diffInDays := diffInHours / 24 in
        if diffInDays <? 7 then show diffInDays +:+ "d ago"
        else
          let diffInWeeks := diffInDays / 7 in
          if diffInWeeks <? 4 then show diffInWeeks +:+ "w ago"
          else
            let diffInMonths := diffInDays / 30 in
            if diffInMonths <? 12 then show diffInMonths +:+ "mo ago"
            else
              let diffInYears := diffInDays / 365 in
              show diffInYears +:+ "y ago".

End Utils.

(** One day in milliseconds. *)
Definition day_ms : Z := 86400000.

(** At most the designated source is open, and none is while a timeout
    is designated. *)
Definition tidy (h : SSE.Hook) : Prop :=
  (forall i, Lifecycle.open_in (SSE.sources h) i = true -> SSE.eventSourceRef h = Some i) /\
  (is_Some (SSE.reconnectTimeoutRef h) ->
   forall i, Lifecycle.open_in (SSE.sources h) i = false).

(** Nothing open, nothing scheduled, status [disconnected]. *)
Definition idle (h : SSE.Hook) : Prop :=
  (forall i, Lifecycle.open_in (SSE.sources h) i = false) /\
  SSE.reconnectTimeoutRef h = None /\
  SSE.status h = disconnected.

(** The retry ceiling a hook mounted with [options] works with. *)
Definition ceiling (options : SSE.SSEOptions) : Z :=
  JS.or_num (SSE.maxReconnectAttempts (SSE.spread SSE.DEFAULT_OPTIONS options)) 10.

(** Every stream of the page is tidy and carries the options of the
    last render; the streams that are not selected are idle. *)
Definition orderly (s : LiveStreams.Streams) : Prop :=
  forall k,
    tidy (LiveStreams.stream k s) /\
    SSE.optsRef (LiveStreams.stream k s) =
      SSE.spread SSE.DEFAULT_OPTIONS (LiveStreams.options (LiveStreams.streamType s) k) /\
    (k <> LiveStreams.streamType s -> idle (LiveStreams.stream k s)).

(** The hooks for one kind of event only. *)
Definition per_kind_hooks : list Lifecycle.Handlers :=
  [Lifecycle.useTransferStream; Lifecycle.useCoordinatedStream].

(** An arrival from the stream, as opposed to a click of the user. *)
Definition is_arrival (a : Dashboard.Action) : bool :=
  match a with
  | Dashboard.Transfer _ | Dashboard.Coordinated _ _ => true
  | _ => false
  end.

(** No two buffered transfers share a non-empty signature, and no two
    buffered coordinated trades share a key. *)
Definition duplicate_free (feed : list LiveFeed.FeedItem) : Prop :=
  (forall i j d d',
     feed !! i = Some (LiveFeed.transfer d) ->
     feed !! j = Some (LiveFeed.transfer d') ->
     JS.truthy (TransferEvent.signature d) = true ->
     TransferEvent.signature d = TransferEvent.signature d' -> i = j) /\
  (forall i j d d',
     feed !! i = Some (LiveFeed.coordinated d) ->
     feed !! j = Some (LiveFeed.coordinated d') ->
     LiveFeed.tradeKey d = LiveFeed.tradeKey d' -> i = j).

(** The characters of a string. *)
Definition chars (s : string) : list ascii := String.list_ascii_of_string s.

(** A [transfers] frame with two transfers, and a [useSSE] hook whose
    connection failed once. *)
Definition sample_frame : string :=
  "[{" +:+ q "signature" +:+ ":" +:+ q "S1" +:+ "}, {" +:+ q "signature" +:+ ":" +:+ q "S2" +:+ "}]".

Definition failed_once : SSE.Hook :=
  after (SSE.UseSSE.onerror 0) (useSSE_connected SSE.no_options).

(** * Properties *)

(** ** The reader *)

Example parse_not_json : JsonText.parse "not json" = None.
Proof. reflexivity. Qed.

(** ** [slice] *)

Lemma slice_prefix {A} (n : Z) (l : list A) :
  0 <= n -> JS.slice 0 (Some n) l = take (Z.to_nat n) l.
Proof.
  intros Hn. unfold JS.slice, JS.rel_index.
  replace (0 <? 0) with false by reflexivity.
  replace (n <? 0) with false by (symmetry; apply Z.ltb_ge; lia).
  rewrite (Z.min_l 0) by lia. rewrite Z.sub_0_r.
  change (drop (Z.to_nat 0) l) with l.
  destruct (Z.le_ge_cases n (Z.of_nat (length l))) as [Hle | Hge].
  - rewrite Z.min_l by lia. reflexivity.
  - rewrite Z.min_r by lia. rewrite Nat2Z.id.
    rewrite (take_ge l (length l)) by lia.
    rewrite (take_ge l (Z.to_nat n)) by lia. reflexivity.
Qed.

Lemma slice_last {A} (n : Z) (l : list A) :
  0 < n -> JS.slice (- n) None l = drop (length l - Z.to_nat n) l.
Proof.
  intros Hn. unfold JS.slice, JS.rel_index.
  replace (- n <? 0) with true by (symmetry; apply Z.ltb_lt; lia).
  rewrite take_ge.
  - f_equal. lia.
  - rewrite length_drop. lia.
Qed.

Lemma take_cons_take {A} (n : nat) (x : A) (l : list A) :
  take n (x :: take n l) = take n (x :: l).
Proof.
  destruct n as [| n]; simpl; [reflexivity |].
  f_equal. rewrite take_take. f_equal. lia.
Qed.

Lemma cons_take_pred {A} (n : nat) (x : A) (l : list A) :
  x :: take n (take (S n) l) = take (S n) (x :: l).
Proof. simpl. f_equal. rewrite take_take. f_equal. lia. Qed.

(** The newest [n] of [n + k] arrivals, newest first, are the arrivals
    without the [k] oldest. *)
Lemma take_reverse_drop {A} (n k : nat) (l : list A) :
  length l = (n + k)%nat -> take n (reverse l) = reverse (drop k l).
Proof. intros Hl. rewrite take_reverse. do 2 f_equal. lia. Qed.

(** ** The combined feed: admission *)

Lemma isDuplicateTransfer_true d prev :
  LiveFeed.isDuplicateTransfer d prev = true <->
  exists d', LiveFeed.transfer d' ∈ prev /\
             TransferEvent.signature d' = TransferEvent.signature d.
Proof.
  unfold LiveFeed.isDuplicateTransfer. rewrite existsb_exists. split.
  - intros [[d' | c] [Hin Hd]]; [| discriminate].
    exists d'. split; [by apply list_elem_of_In | by apply bool_decide_eq_true in Hd].
  - intros (d' & Hin & Hd). exists (LiveFeed.transfer d').
    split; [by apply list_elem_of_In | by apply bool_decide_eq_true].
Qed.

Lemma isDuplicateCoordinated_true d prev :
  LiveFeed.isDuplicateCoordinated d prev = true <->
  exists d', LiveFeed.coordinated d' ∈ prev /\
             LiveFeed.tradeKey d' = LiveFeed.tradeKey d.
Proof.
  unfold LiveFeed.isDuplicateCoordinated. rewrite existsb_exists. split.
  - intros [[t | d'] [Hin Hd]]; [discriminate |].
    exists d'. split; [by apply list_elem_of_In | by apply String.eqb_eq].
  - intros (d' & Hin & Hd). exists (LiveFeed.coordinated d').
    split; [by apply list_elem_of_In | by apply String.eqb_eq].
Qed.

(** An item that passes both duplicate checks goes to the front and the
    list is cut to [MAX_FEED_ITEMS]. *)
Lemma admitItem_fresh_transfer d prev :
  LiveFeed.isDuplicateTransfer d prev = false ->
  LiveFeed.admitItem (LiveFeed.transfer d) prev = take 500 (LiveFeed.transfer d :: prev).
Proof.
  intros Hd. unfold LiveFeed.admitItem. rewrite Hd, andb_false_r.
  apply slice_prefix. unfold LiveFeed.MAX_FEED_ITEMS. lia.
Qed.

Lemma admitAll_snoc items item prev :
  LiveFeed.admitAll (items ++ [item]) prev =
  LiveFeed.admitItem item (LiveFeed.admitAll items prev).
Proof. unfold LiveFeed.admitAll. by rewrite foldl_app. Qed.

Lemma live_transfers_distinct (evs : list TransferEvent.t) :
  NoDup (TransferEvent.signature <$> evs) ->
  LiveFeed.admitAll (LiveFeed.transfer <$> evs) [] =
  LiveFeed.transfer <$> take 500 (reverse evs).
Proof.
  induction evs as [| e evs IH] using rev_ind; intros Hnd; [reflexivity |].
  rewrite fmap_app in Hnd. apply NoDup_app in Hnd as (Hnd & Hfresh & _).
  rewrite fmap_app.
  change (LiveFeed.transfer <$> [e]) with [LiveFeed.transfer e].
  rewrite admitAll_snoc, IH by done.
  rewrite admitItem_fresh_transfer.
  - rewrite reverse_snoc, !fmap_take, take_cons_take. reflexivity.
  - destruct (LiveFeed.isDuplicateTransfer e _) eqn:Hdup; [| done].
    apply isDuplicateTransfer_true in Hdup as (d' & Hin & Hsig).
    apply list_elem_of_fmap in Hin as (d'' & [= ->] & Hin).
    apply elem_of_take in Hin as (i & Hin & _).
    apply list_elem_of_lookup_2 in Hin. rewrite elem_of_reverse in Hin.
    exfalso. apply (Hfresh (TransferEvent.signature e)).
    + rewrite <- Hsig. by apply list_elem_of_fmap_2.
    + simpl. left.
Qed.

(** ** The dashboard mini-feeds *)

Lemma run_snoc acts a p :
  Dashboard.run (acts ++ [a]) p = Dashboard.step (Dashboard.run acts p) a.
Proof. unfold Dashboard.run. by rewrite foldl_app. Qed.

Lemma run_transfers_paused (evs : list TransferEvent.t) p :
  Dashboard.isPaused (Dashboard.run (Dashboard.Transfer <$> evs) p) = Dashboard.isPaused p.
Proof.
  induction evs as [| e evs IH] using rev_ind; [reflexivity |].
  rewrite fmap_app.
  change (Dashboard.Transfer <$> [e]) with [Dashboard.Transfer e].
  rewrite run_snoc. simpl. unfold Dashboard.handleTransfer.
  destruct (Dashboard.isPaused (Dashboard.run _ p)) eqn:Hp; simpl; congruence.
Qed.

Lemma dashboard_transfers (evs : list TransferEvent.t) :
  Dashboard.recentTransfers (Dashboard.run (Dashboard.Transfer <$> evs) Dashboard.initial) =
  take 50 (reverse evs).
Proof.
  induction evs as [| e evs IH] using rev_ind; [reflexivity |].
  rewrite fmap_app.
  change (Dashboard.Transfer <$> [e]) with [Dashboard.Transfer e].
  rewrite run_snoc. unfold Dashboard.step, Dashboard.handleTransfer.
  rewrite run_transfers_paused. cbn [Dashboard.isPaused Dashboard.initial fst Dashboard.recentTransfers].
  rewrite IH, slice_prefix by (unfold Dashboard.MAX_LIVE_TRANSFERS; lia).
  rewrite reverse_snoc.
  change (Z.to_nat (Dashboard.MAX_LIVE_TRANSFERS - 1)) with 49%nat.
  apply cons_take_pred.
Qed.

(** C1. Admitting transfer events with distinct non-empty signatures into
    an empty buffer leaves the newest [N] of them, most recent first: the
    combined live feed ([N = 500]) and the dashboard transfer mini-feed
    ([N = 50]) both hold [min N count] events, and of [N + k] arrivals
    exactly the [k] oldest are gone. *)
Theorem C1_buffer_keeps_newest (evs : list TransferEvent.t) :
  NoDup (TransferEvent.signature <$> evs) ->
  Forall (fun e => JS.truthy (TransferEvent.signature e) = true) evs ->
  let live := LiveFeed.admitAll (LiveFeed.transfer <$> evs) [] in
  let dash := Dashboard.recentTransfers
                (Dashboard.run (Dashboard.Transfer <$> evs) Dashboard.initial) in
  (live = LiveFeed.transfer <$> take 500 (reverse evs) /\
   length live = Nat.min 500 (length evs) /\
   forall k : nat, (0 < k)%nat -> length evs = (500 + k)%nat ->
     live = LiveFeed.transfer <$> reverse (drop k evs)) /\
  (dash = take 50 (reverse evs) /\
   length dash = Nat.min 50 (length evs) /\
   forall k : nat, (0 < k)%nat -> length evs = (50 + k)%nat ->
     dash = reverse (drop k evs)).
Proof.
  intros Hnd _ live dash. subst live dash.
  rewrite live_transfers_distinct, dashboard_transfers by done.
  repeat split.
  - by rewrite length_fmap, length_take, length_reverse.
  - intros k _ Hk. f_equal. by apply take_reverse_drop.
  - by rewrite length_take, length_reverse.
  - intros k _ Hk. by apply take_reverse_drop.
Qed.

(** ** The dashboard key memory *)

Lemma instant_key now d t :
  instant d = Some t ->
  Dashboard.tradeKey now d = CoordinatedTrade.tokenAddress d +:+ "-" +:+ t.
Proof.
  unfold instant, Dashboard.tradeKey, getTradeTimestamp.
  destruct (JS.truthy (CoordinatedTrade.timestamp d)).
  - by intros ->.
  - destruct (JS.truthy (CoordinatedTrade.triggeredAt d)); [by intros -> | discriminate].
Qed.

Lemma has_true k s : JS.has k s = true <-> k ∈ s.
Proof. apply bool_decide_eq_true. Qed.

Lemma add_fresh k s : JS.has k s = false -> JS.add k s = s ++ [k].
Proof. unfold JS.add. by intros ->. Qed.

Lemma prune_spec seen :
  Dashboard.prune seen =
  if decide (100 < length seen)%nat then drop (length seen - 50) seen else seen.
Proof.
  unfold Dashboard.prune. destruct (100 <? Z.of_nat (length seen)) eqn:Hlt.
  - apply Z.ltb_lt in Hlt. rewrite decide_True by lia.
    apply (slice_last 50). lia.
  - apply Z.ltb_ge in Hlt. by rewrite decide_False by lia.
Qed.

Lemma suffix_drop_keep {A} (l1 l2 : list A) (n : nat) :
  l1 `suffix_of` l2 -> (length l1 <= n)%nat ->
  l1 `suffix_of` drop (length l2 - n) l2.
Proof.
  intros [k ->] Hlen. exists (drop (length (k ++ l1) - n) k).
  rewrite length_app. apply drop_app_le. lia.
Qed.

Lemma suffix_prune (l seen : list string) :
  l `suffix_of` seen -> (length l <= 50)%nat -> l `suffix_of` Dashboard.prune seen.
Proof.
  intros Hs Hl. rewrite prune_spec. case_decide; [| done].
  by apply suffix_drop_keep.
Qed.

Lemma handleCoordinated_admits now d p :
  Dashboard.isPaused p = false ->
  JS.has (Dashboard.tradeKey now d) (Dashboard.seenCoordinated p) = false ->
  (Dashboard.handleCoordinated now d p).1 =
  Dashboard.mkPage
    (Dashboard.recentTransfers p)
    (d :: take 19 (Dashboard.recentCoordinated p))
    (Dashboard.prune (Dashboard.seenCoordinated p ++ [Dashboard.tradeKey now d]))
    (Dashboard.mkStats (Dashboard.transferCount (Dashboard.stats p))
       (Dashboard.coordinatedCount (Dashboard.stats p) + 1))
    false.
Proof.
  intros Hp Hk. unfold Dashboard.handleCoordinated. rewrite Hp, Hk. simpl.
  rewrite add_fresh, slice_prefix by (done || (unfold Dashboard.MAX_LIVE_COORDINATED; lia)).
  reflexivity.
Qed.

Lemma handleCoordinated_skips now d p :
  Dashboard.isPaused p = true \/
  JS.has (Dashboard.tradeKey now d) (Dashboard.seenCoordinated p) = true ->
  Dashboard.handleCoordinated now d p = (p, []).
Proof.
  unfold Dashboard.handleCoordinated.
  intros [-> | Hk]; [done |]. rewrite Hk. by destruct (Dashboard.isPaused p).
Qed.

Lemma remembers_step p a : remembers p -> remembers (Dashboard.step p a).
Proof.
  intros (ks & Hks & Hsuf). destruct a as [t | now d | |]; simpl.
  - unfold Dashboard.handleTransfer.
    destruct (Dashboard.isPaused p); exists ks; by split.
  - destruct (Dashboard.isPaused p) eqn:Hp;
      [rewrite handleCoordinated_skips by auto; by exists ks |].
    destruct (JS.has (Dashboard.tradeKey now d) (Dashboard.seenCoordinated p)) eqn:Hk;
      [rewrite handleCoordinated_skips by auto; by exists ks |].
    rewrite handleCoordinated_admits by done.
    exists (Dashboard.tradeKey now d :: take 19 ks). simpl. split.
    + constructor; [by exists now | by apply Forall2_take].
    + apply suffix_prune.
      * rewrite reverse_cons. apply suffix_app.
        rewrite reverse_take. etrans; [apply suffix_drop | done].
      * rewrite length_reverse. simpl. rewrite length_take. lia.
  - exists []. split; [constructor | apply suffix_nil].
  - by exists ks.
Qed.

Lemma remembers_run acts : remembers (Dashboard.run acts Dashboard.initial).
Proof.
  induction acts as [| a acts IH] using rev_ind.
  - exists []. split; [constructor | apply suffix_nil].
  - rewrite run_snoc. by apply remembers_step.
Qed.

(** In a state the page can reach, a buffered trade that carries an
    instant has its key in the key memory. *)
Lemma buffered_key_seen p d t :
  remembers p -> d ∈ Dashboard.recentCoordinated p -> instant d = Some t ->
  (CoordinatedTrade.tokenAddress d +:+ "-" +:+ t) ∈ Dashboard.seenCoordinated p.
Proof.
  intros (ks & Hks & [pre Hsuf]) Hin Ht.
  apply list_elem_of_lookup in Hin as [i Hi].
  destruct (Forall2_lookup_l _ _ _ _ _ Hks Hi) as (k & Hk & now & Hkey).
  rewrite (instant_key _ _ _ Ht) in Hkey. subst k.
  rewrite Hsuf. apply elem_of_app. right.
  apply elem_of_reverse. by eapply list_elem_of_lookup_2.
Qed.

(** The two pages do not share one key for coordinated trades.  The
    dashboard reads [timestamp] before [triggeredAt]: a trade with the
    token address and the [triggeredAt] of a buffered one, but another
    [timestamp], is admitted there.  The live feed reads [triggeredAt]
    only: a trade with the token address and the instant of a buffered
    one, but another [triggeredAt], is admitted there.  So neither
    reading of "trigger instant" makes duplicate admission a no-op on
    both pages. *)
Lemma C2_one_key_counterexample :
  let a := sample_trade "Tok1" (Some "t1") (Some "100") in
  let b := sample_trade "Tok1" (Some "t2") (Some "100") in
  let c := sample_trade "Tok1" (Some "t1") (Some "200") in
  let p := Dashboard.run [Dashboard.Coordinated "n1" a] Dashboard.initial in
  (Dashboard.recentCoordinated p = [a] /\
   CoordinatedTrade.tokenAddress a = CoordinatedTrade.tokenAddress b /\
   CoordinatedTrade.triggeredAt a = CoordinatedTrade.triggeredAt b /\
   Dashboard.recentCoordinated (Dashboard.handleCoordinated "n2" b p).1 = [b; a]) /\
  (CoordinatedTrade.tokenAddress a = CoordinatedTrade.tokenAddress c /\
   instant a = instant c /\
   LiveFeed.admitItem (LiveFeed.coordinated c) [LiveFeed.coordinated a] =
     [LiveFeed.coordinated c; LiveFeed.coordinated a]) /\
  ~ one_key_noop CoordinatedTrade.triggeredAt /\
  ~ one_key_noop instant.
Proof.
  intros a b c p.
  split; [by repeat split |]. split; [by repeat split |]. split.
  - intros [_ Hdashboard].
    specialize (Hdashboard [Dashboard.Coordinated "n1" a] "n2" b a "100").
    cbv zeta in Hdashboard. fold p in Hdashboard.
    assert (Dashboard.handleCoordinated "n2" b p = (p, [])) as Hnoop.
    { apply Hdashboard; [by constructor | reflexivity | reflexivity | reflexivity]. }
    apply (f_equal (fun r => length (Dashboard.recentCoordinated r.1))) in Hnoop.
    discriminate Hnoop.
  - intros [Hfeed _].
    specialize (Hfeed c a "t1" [LiveFeed.coordinated a]).
    assert (LiveFeed.admitItem (LiveFeed.coordinated c) [LiveFeed.coordinated a] =
            [LiveFeed.coordinated a]) as Hnoop.
    { apply Hfeed; [by constructor | reflexivity | reflexivity | reflexivity]. }
    apply (f_equal length) in Hnoop. discriminate Hnoop.
Qed.

(** C2 (amended). Admitting an event whose dedup key equals the key of a
    buffered event of the same kind changes nothing, each page with its
    own key: on the combined feed, a transfer with a non-empty signature
    equal to a buffered one, and a coordinated trade with the token
    address and the [triggeredAt] of a buffered one; on the dashboard
    coordinated mini-feed, in every state the page can reach, a trade
    with the token address and the instant of a buffered one, the instant
    being [timestamp] when it is not empty and [triggeredAt] otherwise. *)
Theorem C2_duplicate_is_noop :
  (forall (d d' : TransferEvent.t) (prev : list LiveFeed.FeedItem),
     JS.truthy (TransferEvent.signature d) = true ->
     LiveFeed.transfer d' ∈ prev ->
     TransferEvent.signature d' = TransferEvent.signature d ->
     LiveFeed.admitItem (LiveFeed.transfer d) prev = prev) /\
  (forall (d d' : CoordinatedTrade.t) (prev : list LiveFeed.FeedItem),
     LiveFeed.coordinated d' ∈ prev ->
     CoordinatedTrade.tokenAddress d' = CoordinatedTrade.tokenAddress d ->
     CoordinatedTrade.triggeredAt d' = CoordinatedTrade.triggeredAt d ->
     LiveFeed.admitItem (LiveFeed.coordinated d) prev = prev) /\
  (forall (acts : list Dashboard.Action) (now : string) (d d' : CoordinatedTrade.t) (t : string),
     let p := Dashboard.run acts Dashboard.initial in
     d' ∈ Dashboard.recentCoordinated p ->
     CoordinatedTrade.tokenAddress d' = CoordinatedTrade.tokenAddress d ->
     instant d' = Some t -> instant d = Some t ->
     Dashboard.handleCoordinated now d p = (p, [])).
Proof.
  split; [| split].
  - intros d d' prev Ht Hin Hsig. unfold LiveFeed.admitItem.
    rewrite Ht. simpl.
    replace (LiveFeed.isDuplicateTransfer d prev) with true; [done |].
    symmetry. apply isDuplicateTransfer_true. eauto.
  - intros d d' prev Hin Htok Htrig. unfold LiveFeed.admitItem.
    replace (LiveFeed.isDuplicateCoordinated d prev) with true; [done |].
    symmetry. apply isDuplicateCoordinated_true. exists d'. split; [done |].
    unfold LiveFeed.tradeKey. by rewrite Htok, Htrig.
  - intros acts now d d' t p Hin Htok Ht' Ht.
    apply handleCoordinated_skips. right. apply has_true.
    rewrite (instant_key _ _ _ Ht), <- Htok.
    apply buffered_key_seen; [apply remembers_run | done | done].
Qed.

(** ** The stream hooks *)

Ltac stmt_unfold :=
  unfold after, effects, no_timeout,
    SSE.UseSSE.onerror, SSE.UseSSE.disconnect, SSE.UseSSE.updateStatus,
    SSE.UseSSE.connect, SSE.UseSSE.onopen, SSE.UseSSE.closeExisting,
    SSE.UseTransferStream.onerror, SSE.UseTransferStream.disconnect,
    SSE.UseCoordinatedStream.onerror, SSE.UseCoordinatedStream.disconnect,
    SSE.clearReconnectTimeout, SSE.setStatus, SSE.close,
    SSE.seq, SSE.cond, SSE.emit, SSE.modify, SSE.skip in *.

(** Membership, and absence of timeouts, in an explicit list of effects. *)
Ltac effect_list :=
  match goal with
  | |- _ ∈ _ => by repeat constructor
  | |- forall d, SetTimeout d ∉ _ =>
      let d := fresh "d" in
      let Hd := fresh "Hd" in
      intros d Hd;
      repeat (apply elem_of_cons in Hd as [Hd | Hd]; [discriminate Hd |]);
      by apply elem_of_nil in Hd
  end.

Lemma alter_closed (es : nat) (srcs : list SSE.EventSource) :
  match alter (fun s => SSE.mkSource (SSE.source_url s) true) es srcs !! es with
  | Some s => negb (SSE.closed s)
  | None => false
  end = false.
Proof.
  rewrite list_lookup_alter, decide_True by done.
  by destruct (srcs !! es).
Qed.

Lemma closed_after_close es h : SSE.is_open es (SSE.close es h).1 = false.
Proof. apply alter_closed. Qed.

Lemma is_open_set_sources es srcs h :
  SSE.is_open es (SSE.set_sources srcs h) =
  match srcs !! es with Some s => negb (SSE.closed s) | None => false end.
Proof. reflexivity. Qed.

(** The sibling hook does what the contract says in every state. *)
Lemma transfer_stream_onerror (es : nat) (h : SSE.Hook) :
  let h' := after (SSE.UseTransferStream.onerror es) h in
  let effs := effects (SSE.UseTransferStream.onerror es) h in
  SetStatus error ∈ effs /\
  SSE.is_open es h' = false /\
  if SSE.may_retry h then
    SSE.status h' = error /\
    SSE.reconnectAttempts h' = SSE.reconnectAttempts h + 1 /\
    SSE.reconnectTimeoutRef h' = Some (SSE.delay h) /\
    SetTimeout (SSE.delay h) ∈ effs
  else
    SSE.status h' = disconnected /\
    SSE.reconnectAttempts h' = SSE.reconnectAttempts h /\
    SSE.reconnectTimeoutRef h' = SSE.reconnectTimeoutRef h /\
    no_timeout effs.
Proof.
  destruct h as [srcs ref n tm cbs opts st le].
  stmt_unfold. unfold SSE.may_retry, SSE.maxAttempts, SSE.delay. cbn.
  destruct (JS.truthy_bool (SSE.autoReconnect opts) &&
            (n <? JS.or_num (SSE.maxReconnectAttempts opts) 10)); cbn.
  - repeat split; try effect_list.
    apply alter_closed.
  - repeat split; try effect_list.
    apply alter_closed.
Qed.

(** [useSSE] on an error while a retry is allowed. *)
Lemma useSSE_onerror_retry (es : nat) (h : SSE.Hook) :
  SSE.may_retry h = true ->
  let h' := after (SSE.UseSSE.onerror es) h in
  let effs := effects (SSE.UseSSE.onerror es) h in
  SetStatus error ∈ effs /\
  SSE.is_open es h' = false /\
  SSE.status h' = error /\
  SSE.reconnectAttempts h' = SSE.reconnectAttempts h + 1 /\
  SSE.reconnectTimeoutRef h' = Some (SSE.delay h) /\
  SetTimeout (SSE.delay h) ∈ effs.
Proof.
  destruct h as [srcs ref n tm cbs opts st le].
  stmt_unfold. unfold SSE.may_retry, SSE.maxAttempts, SSE.delay. cbn.
  intros Hretry.
  destruct cbs as [cT cC [] []]; cbn; rewrite Hretry; cbn;
    (repeat split; try effect_list; apply alter_closed).
Qed.

(** [useSSE] on an error once the attempts are used up. *)
Lemma useSSE_onerror_exhausted (es : nat) (h : SSE.Hook) :
  SSE.maxAttempts h <= SSE.reconnectAttempts h ->
  let h' := after (SSE.UseSSE.onerror es) h in
  let effs := effects (SSE.UseSSE.onerror es) h in
  SetStatus error ∈ effs /\
  SSE.is_open es h' = false /\
  SSE.status h' = disconnected /\
  SSE.reconnectAttempts h' = SSE.reconnectAttempts h /\
  SSE.reconnectTimeoutRef h' = SSE.reconnectTimeoutRef h /\
  no_timeout effs.
Proof.
  destruct h as [srcs ref n tm cbs opts st le].
  stmt_unfold. unfold SSE.may_retry, SSE.maxAttempts, SSE.delay. cbn.
  intros Hmax.
  assert ((n <? JS.or_num (SSE.maxReconnectAttempts opts) 10) = false) as Hlt
    by (apply Z.ltb_ge; lia).
  assert ((JS.or_num (SSE.maxReconnectAttempts opts) 10 <=? n) = true) as Hle
    by (apply Z.leb_le; lia).
  destruct cbs as [cT cC [] []]; cbn; rewrite Hlt, andb_false_r, Hle; cbn;
    (repeat split; try effect_list; apply alter_closed).
Qed.

(** [useSSE] on an error with auto-reconnect off and attempts left: no
    branch of the handler runs, the status stays [error]. *)
Lemma useSSE_onerror_disabled (es : nat) (h : SSE.Hook) :
  JS.truthy_bool (SSE.autoReconnect (SSE.optsRef h)) = false ->
  SSE.reconnectAttempts h < SSE.maxAttempts h ->
  let h' := after (SSE.UseSSE.onerror es) h in
  let effs := effects (SSE.UseSSE.onerror es) h in
  SSE.is_open es h' = false /\
  SSE.status h' = error /\
  SSE.reconnectAttempts h' = SSE.reconnectAttempts h /\
  SSE.reconnectTimeoutRef h' = SSE.reconnectTimeoutRef h /\
  no_timeout effs.
Proof.
  destruct h as [srcs ref n tm cbs opts st le].
  stmt_unfold. unfold SSE.may_retry, SSE.maxAttempts, SSE.delay. cbn.
  intros Hauto Hmax.
  assert ((JS.or_num (SSE.maxReconnectAttempts opts) 10 <=? n) = false) as Hle
    by (apply Z.leb_gt; lia).
  destruct cbs as [cT cC [] []]; cbn; rewrite Hauto, Hle; cbn;
    (repeat split; try effect_list; apply alter_closed).
Qed.

(** C3. A connected [useSSE] hook with [autoReconnect: false] that gets a
    connection error closes its source and schedules nothing, but its
    status stays [error]: [disconnected] is only set once the attempt
    counter has reached the maximum.  [useTransferStream] in the same
    situation ends in [disconnected]. *)
Theorem C3_useSSE_error_without_autoReconnect :
  let h := useSSE_connected no_autoReconnect in
  let h' := after (SSE.UseSSE.onerror (current_source h)) h in
  SSE.status h = connected /\
  SSE.may_retry h = false /\
  SSE.is_open (current_source h) h' = false /\
  SSE.reconnectTimeoutRef h' = None /\
  effects (SSE.UseSSE.onerror (current_source h)) h =
    [ConsoleError "[SSE] Connection error"; SetStatus error;
     Call_onStatusChange error; Call_onError] /\
  SSE.status h' = error /\
  let t := useTransferStream_connected no_autoReconnect in
  SSE.status (after (SSE.UseTransferStream.onerror (current_source t)) t) = disconnected.
Proof. cbv zeta. repeat split. Qed.

(** With [maxReconnectAttempts: 2], three errors in a row, each retry
    started by the timer: the third leaves [useSSE] disconnected with no
    timeout pending. *)
Example three_errors_max_two :
  let h0 := useSSE_connected (max_attempts 2) in
  let h1 := after (SSE.UseSSE.onerror (current_source h0)) h0 in
  let h2 := useSSE_timer_fires h1 in
  let h3 := after (SSE.UseSSE.onerror (current_source h2)) h2 in
  let h4 := useSSE_timer_fires h3 in
  let h5 := after (SSE.UseSSE.onerror (current_source h4)) h4 in
  (SSE.status h1, SSE.reconnectAttempts h1, SSE.reconnectTimeoutRef h1)
    = (error, 1, Some 5000) /\
  (SSE.status h2, SSE.reconnectTimeoutRef h2) = (connecting, None) /\
  (SSE.status h3, SSE.reconnectAttempts h3, SSE.reconnectTimeoutRef h3)
    = (error, 2, Some 5000) /\
  (SSE.status h5, SSE.reconnectAttempts h5, SSE.reconnectTimeoutRef h5)
    = (disconnected, 2, None) /\
  no_timeout (effects (SSE.UseSSE.onerror (current_source h4)) h4).
Proof.
  cbv zeta. repeat split. vm_compute. intros d Hd.
  repeat (apply elem_of_cons in Hd as [Hd | Hd]; [discriminate Hd |]).
  by apply elem_of_nil in Hd.
Qed.

(** C8. [disconnect] of [useSSE], in every state: it ends disconnected
    with the counter at [0], no timeout designated (a designated one is
    cleared) and no source designated (a designated one is closed); a
    second call leaves that state as it is and clears or closes nothing
    more. *)
Theorem C8_disconnect_idempotent (h : SSE.Hook) :
  let h1 := after SSE.UseSSE.disconnect h in
  let h2 := after SSE.UseSSE.disconnect h1 in
  (SSE.status h1 = disconnected /\
   SSE.reconnectAttempts h1 = 0 /\
   SSE.reconnectTimeoutRef h1 = None /\
   SSE.eventSourceRef h1 = None /\
   (forall d, SSE.reconnectTimeoutRef h = Some d ->
      ClearTimeout ∈ effects SSE.UseSSE.disconnect h) /\
   (forall es, SSE.eventSourceRef h = Some es -> SSE.is_open es h1 = false)) /\
  h2 = h1 /\
  (ClearTimeout ∉ effects SSE.UseSSE.disconnect h1) /\
  SSE.sources h2 = SSE.sources h1.
Proof.
  destruct h as [srcs ref n tm [cT cC cE cS] opts st le].
  stmt_unfold. destruct tm as [d |], ref as [es |], cS; cbn;
    (split; [repeat split; try discriminate; intros; try effect_list;
             simplify_eq; apply alter_closed
            | repeat split; intros Hd;
              repeat (apply elem_of_cons in Hd as [Hd | Hd]; [discriminate Hd |]);
              by apply elem_of_nil in Hd ]).
Qed.

(** An error handler reads the options only through [autoReconnect] and
    through the two numbers after their defaults are applied. *)
Lemma onerror_options (opts1 opts2 : SSE.SSEOptions) (h : SSE.Hook) (es : nat)
    (onerror : SSE.Stmt) :
  onerror ∈ error_handlers es ->
  JS.truthy_bool (SSE.autoReconnect opts1) = JS.truthy_bool (SSE.autoReconnect opts2) ->
  JS.or_num (SSE.maxReconnectAttempts opts1) 10 =
    JS.or_num (SSE.maxReconnectAttempts opts2) 10 ->
  JS.or_num (SSE.reconnectDelay opts1) 5000 =
    JS.or_num (SSE.reconnectDelay opts2) 5000 ->
  same_behaviour onerror (SSE.set_optsRef opts1 h) (SSE.set_optsRef opts2 h).
Proof.
  intros Hin Ha Hm Hd.
  destruct h as [srcs ref n tm [cT cC cE cS] opts st le].
  unfold error_handlers in Hin.
  repeat (apply elem_of_cons in Hin as [-> | Hin]); [| | | by apply elem_of_nil in Hin];
    unfold same_behaviour; stmt_unfold;
    unfold SSE.may_retry, SSE.maxAttempts, SSE.delay;
    destruct cE, cS;
    cbn -[JS.truthy_bool JS.or_num];
    rewrite Ha, Hm, Hd;
    destruct (JS.truthy_bool (SSE.autoReconnect opts2) &&
              (n <? JS.or_num (SSE.maxReconnectAttempts opts2) 10)),
             (JS.or_num (SSE.maxReconnectAttempts opts2) 10 <=? n);
    cbn; done.
Qed.

(** C10. An option of [0] for [maxReconnectAttempts] or [reconnectDelay]
    is replaced by the default: in every state and for each of the three
    hooks, the error handler behaves with [0] as it does with [10]
    attempts, respectively [5000] ms, configured.  In particular a hook
    configured with both at [0] retries after [5000] ms. *)
Theorem C10_zero_option_means_default (o : SSE.SSEOptions) (h : SSE.Hook) (es : nat) :
  SSE.maxAttempts (render (with_max 0 o) h) = 10 /\
  SSE.delay (render (with_delay 0 o) h) = 5000 /\
  Forall (fun onerror =>
            same_behaviour onerror (render (with_max 0 o) h) (render (with_max 10 o) h) /\
            same_behaviour onerror (render (with_delay 0 o) h) (render (with_delay 5000 o) h))
         (error_handlers es) /\
  (let h0 := useSSE_connected (with_max 0 (with_delay 0 SSE.no_options)) in
   let h1 := after (SSE.UseSSE.onerror (current_source h0)) h0 in
   SSE.reconnectAttempts h1 = 1 /\
   SSE.reconnectTimeoutRef h1 = Some 5000 /\
   SetTimeout 5000 ∈ effects (SSE.UseSSE.onerror (current_source h0)) h0).
Proof.
  split; [reflexivity |]. split; [reflexivity |]. split.
  - apply Forall_forall. intros onerror Hin. unfold render.
    split; apply (onerror_options _ _ _ es); try done;
      by destruct o as [? ? [[] |] [[] |] ?].
  - cbv zeta. repeat split. vm_compute. by repeat constructor.
Qed.

(** ** Frames that do not parse *)

Lemma dropped_console_error h msg : dropped h (h, [ConsoleError msg]).
Proof.
  repeat split; eauto.
  intros e He. apply list_elem_of_singleton in He. by subst e.
Qed.

(** C4. A frame whose payload does not parse is dropped: each listener of
    [useSSE] ([transfers], [coordinated]) and the message handlers of the
    two per-kind hooks return normally, leave the hook (and so its status)
    as it was, log one console error, call no callback, and leave the
    pages' buffers as they were. *)
Theorem C4_unparsable_frame_dropped
    (JSON_parse : string -> option json) (now : Z) (data : string) (h : SSE.Hook) :
  JSON_parse data = None ->
  dropped h (SSE.UseSSE.on_transfers JSON_parse now data h) /\
  dropped h (SSE.UseSSE.on_coordinated JSON_parse now data h) /\
  dropped h (SSE.UseTransferStream.onmessage JSON_parse data h) /\
  dropped h (SSE.UseCoordinatedStream.onmessage JSON_parse data h).
Proof.
  intros Hparse.
  unfold SSE.UseSSE.on_transfers, SSE.UseSSE.on_coordinated,
    SSE.UseTransferStream.onmessage, SSE.UseCoordinatedStream.onmessage.
  rewrite Hparse. repeat split; apply dropped_console_error.
Qed.

(** ** Transfers without a signature *)

(** C5. A transfer whose signature is empty or absent passes admission on
    the combined feed whatever the buffer holds: it is put in front and
    the list is cut to 500, also when the very same event is buffered. *)
Theorem C5_unsigned_transfer_always_admitted
    (d : TransferEvent.t) (prev : list LiveFeed.FeedItem) :
  JS.truthy (TransferEvent.signature d) = false ->
  LiveFeed.admitItem (LiveFeed.transfer d) prev = LiveFeed.transfer d :: take 499 prev /\
  head (LiveFeed.admitItem (LiveFeed.transfer d) prev) = Some (LiveFeed.transfer d) /\
  ((length prev < 500)%nat ->
   LiveFeed.admitItem (LiveFeed.transfer d) prev = LiveFeed.transfer d :: prev).
Proof.
  intros Hsig.
  assert (LiveFeed.admitItem (LiveFeed.transfer d) prev =
          LiveFeed.transfer d :: take 499 prev) as Heq.
  { unfold LiveFeed.admitItem. rewrite Hsig. simpl andb. cbv iota.
    rewrite slice_prefix by (unfold LiveFeed.MAX_FEED_ITEMS; lia).
    reflexivity. }
  rewrite Heq. repeat split.
  intros Hlen. by rewrite take_ge by lia.
Qed.

(** ** Capacities and independence of the buffers *)

Lemma admitItem_length item prev :
  (length (LiveFeed.admitItem item prev) <= Nat.max 500 (length prev))%nat.
Proof.
  unfold LiveFeed.admitItem.
  repeat case_match; try lia;
    rewrite slice_prefix by (unfold LiveFeed.MAX_FEED_ITEMS; lia);
    rewrite length_take;
    change (Z.to_nat LiveFeed.MAX_FEED_ITEMS) with 500%nat; lia.
Qed.

Lemma admitAll_length items prev :
  (length prev <= 500)%nat -> (length (LiveFeed.admitAll items prev) <= 500)%nat.
Proof.
  induction items as [| item items IH] using rev_ind; intros Hp; [done |].
  rewrite admitAll_snoc.
  pose proof (admitItem_length item (LiveFeed.admitAll items prev)).
  specialize (IH Hp). lia.
Qed.

Lemma step_capacity p a :
  (length (Dashboard.recentTransfers p) <= 50)%nat ->
  (length (Dashboard.recentCoordinated p) <= 20)%nat ->
  (length (Dashboard.recentTransfers (Dashboard.step p a)) <= 50)%nat /\
  (length (Dashboard.recentCoordinated (Dashboard.step p a)) <= 20)%nat.
Proof.
  intros Ht Hc. destruct a as [t | now d | |]; simpl.
  - unfold Dashboard.handleTransfer. destruct (Dashboard.isPaused p); simpl; [done |].
    rewrite slice_prefix by (unfold Dashboard.MAX_LIVE_TRANSFERS; lia).
    rewrite length_take.
    change (Z.to_nat (Dashboard.MAX_LIVE_TRANSFERS - 1)) with 49%nat. lia.
  - unfold Dashboard.handleCoordinated.
    destruct (Dashboard.isPaused p); simpl; [done |].
    destruct (JS.has _ _); simpl; [done |].
    rewrite slice_prefix by (unfold Dashboard.MAX_LIVE_COORDINATED; lia).
    rewrite length_take.
    change (Z.to_nat (Dashboard.MAX_LIVE_COORDINATED - 1)) with 19%nat. lia.
  - split; lia.
  - done.
Qed.

Lemma run_capacity acts :
  (length (Dashboard.recentTransfers (Dashboard.run acts Dashboard.initial)) <= 50)%nat /\
  (length (Dashboard.recentCoordinated (Dashboard.run acts Dashboard.initial)) <= 20)%nat.
Proof.
  induction acts as [| a acts [IHt IHc]] using rev_ind.
  - simpl. lia.
  - rewrite run_snoc. by apply step_capacity.
Qed.

Lemma same_transfers_step p q a :
  same_transfers p q ->
  same_transfers (Dashboard.step p a)
    (if touches_transfers a then Dashboard.step q a else q).
Proof.
  intros [Ht Hp]. destruct a as [t | now d | |]; simpl.
  - unfold Dashboard.handleTransfer. rewrite <- Hp.
    destruct (Dashboard.isPaused p) eqn:Hpp; split; simpl; congruence.
  - unfold Dashboard.handleCoordinated.
    destruct (Dashboard.isPaused p) eqn:Hpp; [split; simpl; congruence |].
    destruct (JS.has _ _); split; simpl; congruence.
  - by split.
  - split; simpl; congruence.
Qed.

Lemma same_coordinated_step p q a :
  same_coordinated p q ->
  same_coordinated (Dashboard.step p a)
    (if touches_coordinated a then Dashboard.step q a else q).
Proof.
  intros (Hc & Hs & Hp). destruct a as [t | now d | |]; simpl.
  - unfold Dashboard.handleTransfer.
    destruct (Dashboard.isPaused p) eqn:Hpp; repeat split; simpl; congruence.
  - unfold Dashboard.handleCoordinated. rewrite <- Hp, <- Hs, <- Hc.
    destruct (Dashboard.isPaused p) eqn:Hpp; [repeat split; simpl; congruence |].
    destruct (JS.has _ _); repeat split; simpl; congruence.
  - by repeat split.
  - repeat split; simpl; congruence.
Qed.

Lemma run_cons a acts p :
  Dashboard.run (a :: acts) p = Dashboard.run acts (Dashboard.step p a).
Proof. reflexivity. Qed.

Lemma same_transfers_run acts p q :
  same_transfers p q ->
  same_transfers (Dashboard.run acts p)
    (Dashboard.run (List.filter touches_transfers acts) q).
Proof.
  revert p q. induction acts as [| a acts IH]; intros p q H; [done |].
  rewrite run_cons. simpl List.filter.
  pose proof (same_transfers_step p q a H) as Hstep.
  destruct (touches_transfers a); [rewrite run_cons |]; by apply IH.
Qed.

Lemma same_coordinated_run acts p q :
  same_coordinated p q ->
  same_coordinated (Dashboard.run acts p)
    (Dashboard.run (List.filter touches_coordinated acts) q).
Proof.
  revert p q. induction acts as [| a acts IH]; intros p q H; [done |].
  rewrite run_cons. simpl List.filter.
  pose proof (same_coordinated_step p q a H) as Hstep.
  destruct (touches_coordinated a); [rewrite run_cons |]; by apply IH.
Qed.

(** The transfer mini-feed keeps no dedup set: a transfer whose
    signature is the one of the buffered transfer is put in front all the
    same, and the only key memory of the page, the one of the coordinated
    mini-feed, stays empty. *)
Lemma C6_transfer_minifeed_counterexample :
  let s1 := sample_transfer (Some "S1") in
  let p := Dashboard.run [Dashboard.Transfer s1] Dashboard.initial in
  Dashboard.recentTransfers p = [s1] /\
  JS.truthy (TransferEvent.signature s1) = true /\
  Dashboard.recentTransfers (Dashboard.handleTransfer s1 p).1 = [s1; s1] /\
  Dashboard.seenCoordinated (Dashboard.handleTransfer s1 p).1 = [] /\
  ~ transfer_minifeed_dedups.
Proof.
  intros s1 p. do 4 (split; [reflexivity |]).
  intros Hdedups.
  specialize (Hdedups [Dashboard.Transfer s1] s1 s1).
  cbv zeta in Hdedups. fold p in Hdedups.
  assert (Dashboard.recentTransfers (Dashboard.handleTransfer s1 p).1 =
          Dashboard.recentTransfers p) as Hnoop.
  { apply Hdedups; [by constructor | reflexivity | reflexivity]. }
  apply (f_equal length) in Hnoop. discriminate Hnoop.
Qed.

(** C6 (amended). The capacities are the constants [500], [50] and [20]
    in every state the pages reach, and the mini-feeds of the dashboard do
    not interfere: after any interleaving of arrivals, clears and pauses,
    the transfer list is what it would be had no coordinated trade
    arrived, and the coordinated list and its key memory are what they
    would be had no transfer arrived.  Deduplication is per buffer: the
    combined feed decides from its own list and nothing else (it returns
    the list unchanged or the item in front of it, cut to [500]); the
    coordinated mini-feed decides from its own key memory; the transfer
    mini-feed keeps no dedup set and, when the page is not paused, puts
    every transfer in front. *)
Theorem C6_buffers_independent
    (items : list LiveFeed.FeedItem) (acts : list Dashboard.Action) (p : Dashboard.Page) :
  ((length (LiveFeed.admitAll items []) <= 500)%nat /\
   (length (Dashboard.recentTransfers (Dashboard.run acts Dashboard.initial)) <= 50)%nat /\
   (length (Dashboard.recentCoordinated (Dashboard.run acts Dashboard.initial)) <= 20)%nat) /\
  Dashboard.recentTransfers (Dashboard.run acts p) =
    Dashboard.recentTransfers (Dashboard.run (List.filter touches_transfers acts) p) /\
  Dashboard.recentCoordinated (Dashboard.run acts p) =
    Dashboard.recentCoordinated (Dashboard.run (List.filter touches_coordinated acts) p) /\
  Dashboard.seenCoordinated (Dashboard.run acts p) =
    Dashboard.seenCoordinated (Dashboard.run (List.filter touches_coordinated acts) p) /\
  (forall (item : LiveFeed.FeedItem) (prev : list LiveFeed.FeedItem),
     LiveFeed.admitItem item prev = prev \/
     LiveFeed.admitItem item prev = take 500 (item :: prev)) /\
  (forall (now : string) (d : CoordinatedTrade.t) (q : Dashboard.Page),
     Dashboard.isPaused q = false ->
     Dashboard.recentCoordinated (Dashboard.handleCoordinated now d q).1 =
       (if JS.has (Dashboard.tradeKey now d) (Dashboard.seenCoordinated q)
        then Dashboard.recentCoordinated q
        else d :: take 19 (Dashboard.recentCoordinated q)) /\
     Dashboard.recentTransfers (Dashboard.handleCoordinated now d q).1 =
       Dashboard.recentTransfers q) /\
  (forall (d : TransferEvent.t) (q : Dashboard.Page),
     Dashboard.isPaused q = false ->
     Dashboard.recentTransfers (Dashboard.handleTransfer d q).1 =
       d :: take 49 (Dashboard.recentTransfers q) /\
     Dashboard.recentCoordinated (Dashboard.handleTransfer d q).1 =
       Dashboard.recentCoordinated q /\
     Dashboard.seenCoordinated (Dashboard.handleTransfer d q).1 =
       Dashboard.seenCoordinated q).
Proof.
  split; [split |].
  - apply admitAll_length. simpl. lia.
  - apply run_capacity.
  - destruct (same_transfers_run acts p p) as [Ht _]; [done |].
    destruct (same_coordinated_run acts p p) as (Hc & Hs & _); [done |].
    do 3 (split; [done |]). split; [| split].
    + intros item prev. unfold LiveFeed.admitItem.
      destruct item as [d | d].
      * destruct (JS.truthy (TransferEvent.signature d) && LiveFeed.isDuplicateTransfer d prev);
          [by left | right].
        rewrite slice_prefix by (unfold LiveFeed.MAX_FEED_ITEMS; lia). reflexivity.
      * destruct (LiveFeed.isDuplicateCoordinated d prev); [by left | right].
        rewrite slice_prefix by (unfold LiveFeed.MAX_FEED_ITEMS; lia). reflexivity.
    + intros now d q Hq.
      destruct (JS.has (Dashboard.tradeKey now d) (Dashboard.seenCoordinated q)) eqn:Hk.
      * by rewrite handleCoordinated_skips by (by right).
      * by rewrite handleCoordinated_admits.
    + intros d q Hq. unfold Dashboard.handleTransfer. rewrite Hq. simpl.
      by rewrite slice_prefix by (unfold Dashboard.MAX_LIVE_TRANSFERS; lia).
Qed.

(** ** The key memory stays small *)

Lemma prune_length seen :
  (length seen <= 101)%nat -> (length (Dashboard.prune seen) <= 100)%nat.
Proof.
  intros Hlen. rewrite prune_spec. case_decide; [| lia].
  rewrite length_drop. lia.
Qed.

Lemma step_seen_bound p a :
  (length (Dashboard.seenCoordinated p) <= 100)%nat ->
  (length (Dashboard.seenCoordinated (Dashboard.step p a)) <= 100)%nat.
Proof.
  intros Hlen. destruct a as [t | now d | |]; simpl; try done.
  - unfold Dashboard.handleTransfer. by destruct (Dashboard.isPaused p).
  - unfold Dashboard.handleCoordinated.
    destruct (Dashboard.isPaused p); [done |].
    destruct (JS.has _ _) eqn:Hk; [done |]. simpl.
    apply prune_length. rewrite add_fresh, length_app by done. simpl. lia.
Qed.

Lemma run_seen_bound acts :
  (length (Dashboard.seenCoordinated (Dashboard.run acts Dashboard.initial)) <= 100)%nat.
Proof.
  induction acts as [| a acts IH] using rev_ind.
  - simpl. lia.
  - rewrite run_snoc. by apply step_seen_bound.
Qed.

(** C7. The key memory of the coordinated mini-feed is a store of its
    own (clearing the lists leaves it as it is); an admission appends the
    new key and, when that makes more than 100 entries, keeps the most
    recent half; so in every state the page reaches the memory holds at
    most 100 keys. *)
Theorem C7_key_memory_bounded
    (acts : list Dashboard.Action) (now : string) (d : CoordinatedTrade.t) :
  let p := Dashboard.run acts Dashboard.initial in
  (length (Dashboard.seenCoordinated p) <= 100)%nat /\
  Dashboard.seenCoordinated (Dashboard.handleClearLive p).1 = Dashboard.seenCoordinated p /\
  (Dashboard.isPaused p = false ->
   JS.has (Dashboard.tradeKey now d) (Dashboard.seenCoordinated p) = false ->
   let s := Dashboard.seenCoordinated p ++ [Dashboard.tradeKey now d] in
   Dashboard.seenCoordinated (Dashboard.handleCoordinated now d p).1 =
     (if decide (100 < length s)%nat
      then drop (length s - length s `div` 2) s
      else s)).
Proof.
  intros p. split; [apply run_seen_bound |]. split; [done |].
  intros Hp Hk s. rewrite handleCoordinated_admits by done. simpl.
  fold s. rewrite prune_spec.
  pose proof (run_seen_bound acts) as Hb. fold p in Hb.
  case_decide as Hlen; [| done].
  assert (length s = 101%nat) as ->.
  { subst s. rewrite length_app in *. simpl in *. lia. }
  reflexivity.
Qed.

(** ** The sound cue *)

(** C9. With sound enabled, every item handed to [addFeedItem] gets its
    tone (880 Hz for a coordinated trade, 440 Hz for a transfer, where the
    platform has audio), whatever admission decides: the tone is the last
    effect also when the item is rejected as a duplicate and the list is
    left as it was. *)
Theorem C9_sound_on_every_arrival
    (audio : bool) (item : LiveFeed.FeedItem) (p : LiveFeed.Page) :
  LiveFeed.soundEnabled p = true ->
  (LiveFeed.addFeedItem audio item p).2 =
    LiveFeed.duplicateLog item (LiveFeed.feedItems p) ++
    LiveFeed.playNotificationSound audio (LiveFeed.kind item) /\
  (audio = true ->
   Tone (match item with LiveFeed.coordinated _ => 880 | LiveFeed.transfer _ => 440 end)
     ∈ (LiveFeed.addFeedItem audio item p).2) /\
  (LiveFeed.admitItem item (LiveFeed.feedItems p) = LiveFeed.feedItems p ->
   LiveFeed.feedItems (LiveFeed.addFeedItem audio item p).1 = LiveFeed.feedItems p /\
   LiveFeed.playNotificationSound audio (LiveFeed.kind item)
     `suffix_of` (LiveFeed.addFeedItem audio item p).2).
Proof.
  intros Hs. unfold LiveFeed.addFeedItem. rewrite Hs. simpl. repeat split.
  - intros ->. apply elem_of_app. right. destruct item; simpl; by constructor.
  - done.
  - by eexists.
Qed.

Lemma C1_buffer_keeps_newest_witness :
  NoDup (TransferEvent.signature <$> arrivals 52) /\
  Forall (fun e => JS.truthy (TransferEvent.signature e) = true) (arrivals 52) /\
  Dashboard.recentTransfers
    (Dashboard.run (Dashboard.Transfer <$> arrivals 52) Dashboard.initial) =
  reverse (drop 2 (arrivals 52)) /\
  length (LiveFeed.admitAll (LiveFeed.transfer <$> arrivals 52) []) = 52%nat.
Proof.
  assert (NoDup (TransferEvent.signature <$> arrivals 52)) as Hnd
    by (refine (bool_decide_unpack _ _); vm_compute; exact I).
  assert (Forall (fun e => JS.truthy (TransferEvent.signature e) = true) (arrivals 52))
    as Hsig by (refine (bool_decide_unpack _ _); vm_compute; exact I).
  destruct (C1_buffer_keeps_newest (arrivals 52) Hnd Hsig)
    as [(_ & Hlive & _) (_ & _ & Hdash)].
  split; [exact Hnd |]. split; [exact Hsig |]. split.
  - apply (Hdash 2%nat); [lia | reflexivity].
  - exact Hlive.
Defined.

(** The same trade seen twice, then the same token at a later instant:
    two entries, on the live page and on the dashboard. *)
Example coordinated_scenario :
  let t100 := sample_trade "Tok1" None (Some "100") in
  let t200 := sample_trade "Tok1" None (Some "200") in
  LiveFeed.admitAll
    [LiveFeed.coordinated t100; LiveFeed.coordinated t100; LiveFeed.coordinated t200] [] =
    [LiveFeed.coordinated t200; LiveFeed.coordinated t100] /\
  Dashboard.recentCoordinated
    (Dashboard.run
       [Dashboard.Coordinated "n1" t100; Dashboard.Coordinated "n2" t100;
        Dashboard.Coordinated "n3" t200] Dashboard.initial) = [t200; t100].
Proof. split; reflexivity. Qed.

Lemma C2_duplicate_is_noop_witness :
  let s1 := sample_transfer (Some "S1") in
  let t100 := sample_trade "Tok1" None (Some "100") in
  let seen100 := sample_trade "Tok1" (Some "100") None in
  let p := Dashboard.run [Dashboard.Coordinated "n1" seen100] Dashboard.initial in
  LiveFeed.admitItem (LiveFeed.transfer s1) [LiveFeed.transfer s1] = [LiveFeed.transfer s1] /\
  LiveFeed.admitItem (LiveFeed.coordinated t100) [LiveFeed.coordinated t100] =
    [LiveFeed.coordinated t100] /\
  Dashboard.handleCoordinated "n2" seen100 p = (p, []).
Proof.
  intros s1 t100 seen100 p.
  destruct C2_duplicate_is_noop as (Htransfer & Hcoordinated & Hdashboard).
  split; [| split].
  - apply (Htransfer s1 s1); [reflexivity | by constructor | reflexivity].
  - apply (Hcoordinated t100 t100); [by constructor | reflexivity | reflexivity].
  - apply (Hdashboard [Dashboard.Coordinated "n1" seen100] "n2" seen100 seen100 "100");
      [by constructor | reflexivity | reflexivity | reflexivity].
Defined.

Lemma C4_unparsable_frame_dropped_witness :
  let h := useSSE_connected SSE.no_options in
  JsonText.parse "not json" = None /\
  SSE.status h = connected /\
  dropped h (SSE.UseSSE.on_transfers JsonText.parse 0 "not json" h) /\
  SSE.status (SSE.UseSSE.on_coordinated JsonText.parse 0 "not json" h).1 = connected.
Proof.
  intros h.
  assert (JsonText.parse "not json" = None) as Hparse by reflexivity.
  destruct (C4_unparsable_frame_dropped JsonText.parse 0 "not json" h Hparse)
    as (Htransfers & (Hcoordinated & _) & _).
  split; [exact Hparse |]. split; [reflexivity |]. split; [exact Htransfers |].
  rewrite Hcoordinated. reflexivity.
Defined.

Lemma C5_unsigned_transfer_always_admitted_witness :
  let d := sample_transfer None in
  JS.truthy (TransferEvent.signature d) = false /\
  LiveFeed.admitItem (LiveFeed.transfer d) [LiveFeed.transfer d] =
    [LiveFeed.transfer d; LiveFeed.transfer d].
Proof.
  intros d. split; [reflexivity |].
  destruct (C5_unsigned_transfer_always_admitted d [LiveFeed.transfer d] eq_refl)
    as (_ & _ & Hroom).
  apply Hroom. simpl. lia.
Defined.

Lemma C6_buffers_independent_witness :
  let s1 := sample_transfer (Some "S1") in
  let t100 := sample_trade "Tok1" None (Some "100") in
  let p := Dashboard.run [Dashboard.Transfer s1; Dashboard.Coordinated "n1" t100]
             Dashboard.initial in
  Dashboard.isPaused p = false /\
  Dashboard.recentTransfers (Dashboard.handleTransfer s1 p).1 = [s1; s1] /\
  Dashboard.recentCoordinated (Dashboard.handleCoordinated "n2" t100 p).1 = [t100].
Proof.
  intros s1 t100 p.
  destruct (C6_buffers_independent [] [] p) as (_ & _ & _ & _ & _ & Hcoordinated & Htransfers).
  destruct (Hcoordinated "n2" t100 p eq_refl) as [Hc _].
  destruct (Htransfers s1 p eq_refl) as [Ht _].
  split; [reflexivity |]. split; [rewrite Ht | rewrite Hc]; reflexivity.
Defined.

(** An empty signature is treated like an absent one. *)
Example empty_signature_admitted :
  let d := sample_transfer (Some "") in
  LiveFeed.admitItem (LiveFeed.transfer d) [LiveFeed.transfer d] =
    [LiveFeed.transfer d; LiveFeed.transfer d].
Proof. reflexivity. Qed.

Lemma C7_key_memory_bounded_witness :
  let p := Dashboard.run (trade_arrivals 2) Dashboard.initial in
  let d := sample_trade "Tok1" None (Some "fresh") in
  Dashboard.isPaused p = false /\
  JS.has (Dashboard.tradeKey "now" d) (Dashboard.seenCoordinated p) = false /\
  Dashboard.seenCoordinated (Dashboard.handleCoordinated "now" d p).1 =
    ["Tok1-S"; "Tok1-xS"; "Tok1-fresh"].
Proof.
  cbv zeta.
  destruct (C7_key_memory_bounded (trade_arrivals 2) "now"
              (sample_trade "Tok1" None (Some "fresh"))) as (_ & _ & Hprune).
  split; [reflexivity |]. split; [reflexivity |].
  rewrite (Hprune eq_refl eq_refl). reflexivity.
Defined.

(** The 101st key triggers the cleanup: 50 keys are left, the newest
    last. *)
Example key_memory_pruned :
  let p := Dashboard.run (trade_arrivals 101) Dashboard.initial in
  length (Dashboard.seenCoordinated (Dashboard.run (trade_arrivals 100) Dashboard.initial))
    = 100%nat /\
  length (Dashboard.seenCoordinated p) = 50%nat /\
  last (Dashboard.seenCoordinated p) = Some ("Tok1-" +:+ marks 100) /\
  length (Dashboard.recentCoordinated p) = 20%nat.
Proof. vm_compute. repeat split. Qed.

Lemma C9_sound_on_every_arrival_witness :
  let s1 := LiveFeed.transfer (sample_transfer (Some "S1")) in
  let p := LiveFeed.mkPage [s1] false true in
  LiveFeed.soundEnabled p = true /\
  LiveFeed.admitItem s1 (LiveFeed.feedItems p) = LiveFeed.feedItems p /\
  (LiveFeed.addFeedItem true s1 p).2 = [Tone 440].
Proof.
  intros s1 p.
  destruct (C9_sound_on_every_arrival true s1 p eq_refl) as (Heffects & _).
  split; [reflexivity |]. split; [reflexivity |].
  rewrite Heffects. reflexivity.
Defined.

(** A frame of the [transfers] event carrying two transfers, delivered to
    the dashboard page. *)
Example transfers_frame :
  let frame :=
    "[{" +:+ q "signature" +:+ ":" +:+ q "S1" +:+ "," +:+ q "side" +:+ ":" +:+ q "SELL" +:+ "}, {"
         +:+ q "signature" +:+ ":" +:+ q "S2" +:+ "}]" in
  let h := useSSE_connected SSE.no_options in
  let r := SSE.UseSSE.on_transfers JsonText.parse 7 frame h in
  SSE.lastEvent r.1 = Some 7 /\
  (TransferEvent.signature <$>
     Dashboard.recentTransfers (Wiring.deliver (Wiring.dashboard "now") r.2 Dashboard.initial).1)
   = [Some "S2"; Some "S1"].
Proof. split; reflexivity. Qed.

(** * Further properties *)

(** ** What each entry point of a hook does to the refs *)

Lemma connect_shape (H : Lifecycle.Handlers) (env : option string) (h : SSE.Hook) :
  H ∈ Lifecycle.hooks ->
  let h' := after (Lifecycle.connect H env) h in
  (exists u, SSE.sources h' = Lifecycle.close_ref h ++ [SSE.mkSource u false]) /\
  SSE.eventSourceRef h' = Some (length (SSE.sources h)) /\
  SSE.reconnectTimeoutRef h' = None /\
  SSE.reconnectAttempts h' = SSE.reconnectAttempts h /\
  SSE.optsRef h' = SSE.optsRef h /\
  SSE.status h' = connecting.
Proof.
  intros HH. destruct h as [srcs ref n tm [cT cC cE cS] opts st le].
  unfold Lifecycle.hooks in HH.
  repeat (apply elem_of_cons in HH as [-> | HH]); [| | | by apply elem_of_nil in HH];
    cbn; stmt_unfold;
    unfold SSE.UseTransferStream.connect, SSE.UseCoordinatedStream.connect,
      SSE.UseTransferStream.closeExisting, SSE.UseCoordinatedStream.closeExisting,
      SSE.newEventSource, Lifecycle.close_ref; stmt_unfold;
    destruct tm, ref, cS; cbn; repeat split; eauto; by rewrite length_alter.
Qed.

Lemma onopen_shape (H : Lifecycle.Handlers) (h : SSE.Hook) :
  H ∈ Lifecycle.hooks ->
  let h' := after (Lifecycle.onopen H) h in
  SSE.sources h' = SSE.sources h /\
  SSE.eventSourceRef h' = SSE.eventSourceRef h /\
  SSE.reconnectTimeoutRef h' = SSE.reconnectTimeoutRef h /\
  SSE.reconnectAttempts h' = 0 /\
  SSE.optsRef h' = SSE.optsRef h /\
  SSE.status h' = connected.
Proof.
  intros HH. destruct h as [srcs ref n tm [cT cC cE cS] opts st le].
  unfold Lifecycle.hooks in HH.
  repeat (apply elem_of_cons in HH as [-> | HH]); [| | | by apply elem_of_nil in HH];
    cbn; stmt_unfold;
    unfold SSE.UseTransferStream.onopen, SSE.UseCoordinatedStream.onopen; stmt_unfold;
    destruct cS; cbn; repeat split.
Qed.

Lemma onerror_shape (H : Lifecycle.Handlers) (es : nat) (h : SSE.Hook) :
  H ∈ Lifecycle.hooks ->
  let h' := after (Lifecycle.onerror H es) h in
  SSE.sources h' =
    alter (fun s => SSE.mkSource (SSE.source_url s) true) es (SSE.sources h) /\
  SSE.eventSourceRef h' = SSE.eventSourceRef h /\
  SSE.optsRef h' = SSE.optsRef h /\
  if SSE.may_retry h then
    SSE.reconnectAttempts h' = SSE.reconnectAttempts h + 1 /\
    SSE.reconnectTimeoutRef h' = Some (SSE.delay h) /\
    SSE.status h' = error
  else
    SSE.reconnectAttempts h' = SSE.reconnectAttempts h /\
    SSE.reconnectTimeoutRef h' = SSE.reconnectTimeoutRef h /\
    (SSE.status h' = disconnected \/
     SSE.status h' = error /\ H = Lifecycle.useSSE /\
     SSE.reconnectAttempts h < SSE.maxAttempts h).
Proof.
  intros HH. destruct h as [srcs ref n tm [cT cC cE cS] opts st le].
  unfold Lifecycle.hooks in HH.
  repeat (apply elem_of_cons in HH as [-> | HH]); [| | | by apply elem_of_nil in HH];
    cbn; stmt_unfold; unfold SSE.may_retry, SSE.maxAttempts, SSE.delay;
    destruct cE, cS; cbn -[JS.truthy_bool JS.or_num];
    destruct (JS.truthy_bool (SSE.autoReconnect opts) &&
              (n <? JS.or_num (SSE.maxReconnectAttempts opts) 10));
    cbn -[JS.truthy_bool JS.or_num]; repeat split; auto;
    destruct (JS.or_num (SSE.maxReconnectAttempts opts) 10 <=? n) eqn:Hle;
    cbn -[JS.truthy_bool JS.or_num]; repeat split; auto;
    right; repeat split; apply Z.leb_gt in Hle; lia.
Qed.

Lemma disconnect_shape (H : Lifecycle.Handlers) (h : SSE.Hook) :
  H ∈ Lifecycle.hooks ->
  let h' := after (Lifecycle.disconnect H) h in
  SSE.sources h' = Lifecycle.close_ref h /\
  SSE.eventSourceRef h' = None /\
  SSE.reconnectTimeoutRef h' = None /\
  SSE.optsRef h' = SSE.optsRef h /\
  SSE.status h' = disconnected /\
  (SSE.reconnectAttempts h' = 0 \/
   SSE.reconnectAttempts h' = SSE.reconnectAttempts h).
Proof.
  intros HH. destruct h as [srcs ref n tm [cT cC cE cS] opts st le].
  unfold Lifecycle.hooks in HH.
  repeat (apply elem_of_cons in HH as [-> | HH]); [| | | by apply elem_of_nil in HH];
    cbn; stmt_unfold; unfold Lifecycle.close_ref;
    destruct tm, ref, cS; cbn; repeat split; auto.
Qed.

(** ** No connection is leaked *)

Lemma open_in_alter srcs es i :
  Lifecycle.open_in (alter (fun s => SSE.mkSource (SSE.source_url s) true) es srcs) i = true ->
  i <> es /\ Lifecycle.open_in srcs i = true.
Proof.
  unfold Lifecycle.open_in. rewrite list_lookup_alter.
  case_decide as Hi; [subst; by destruct (srcs !! _) |].
  intros Ho. split; [congruence | done].
Qed.

Lemma open_in_new srcs u i :
  Lifecycle.open_in (srcs ++ [SSE.mkSource u false]) i = true ->
  Lifecycle.open_in srcs i = true \/ i = length srcs.
Proof.
  unfold Lifecycle.open_in. intros Ho.
  destruct (decide (i < length srcs)%nat) as [Hlt | Hge].
  - rewrite lookup_app_l in Ho by done. by left.
  - destruct (decide (i = length srcs)) as [-> | Hne]; [by right |].
    rewrite lookup_ge_None_2 in Ho; [done |]. rewrite length_app. simpl. lia.
Qed.

Lemma open_in_old srcs i :
  Lifecycle.open_in srcs i = true -> (i < length srcs)%nat.
Proof.
  unfold Lifecycle.open_in. destruct (srcs !! i) eqn:Hi; [| done].
  intros _. by eapply lookup_lt_Some.
Qed.

Lemma close_ref_closed h i :
  tidy h -> Lifecycle.open_in (Lifecycle.close_ref h) i = false.
Proof.
  intros [Hone _]. unfold Lifecycle.close_ref.
  destruct (Lifecycle.open_in _ i) eqn:Ho; [| done]. exfalso.
  destruct (SSE.eventSourceRef h) as [es |] eqn:Href.
  - apply open_in_alter in Ho as [Hne Ho]. apply Hone in Ho. congruence.
  - apply Hone in Ho. congruence.
Qed.

Lemma close_ref_length h : length (Lifecycle.close_ref h) = length (SSE.sources h).
Proof.
  unfold Lifecycle.close_ref. destruct (SSE.eventSourceRef h); [apply length_alter | done].
Qed.

Lemma tidy_connect H env h :
  H ∈ Lifecycle.hooks -> tidy h -> tidy (after (Lifecycle.connect H env) h).
Proof.
  intros HH Ht.
  destruct (connect_shape H env h HH) as ([u Hs] & Hr & Htm & _).
  split.
  - intros i Ho. rewrite Hs in Ho. apply open_in_new in Ho as [Ho | ->].
    + by rewrite close_ref_closed in Ho.
    + by rewrite Hr, close_ref_length.
  - rewrite Htm. by intros [? ?].
Qed.

Lemma idle_disconnect H h :
  H ∈ Lifecycle.hooks -> tidy h -> idle (after (Lifecycle.disconnect H) h).
Proof.
  intros HH Ht.
  destruct (disconnect_shape H h HH) as (Hs & _ & Htm & _ & Hst & _).
  split; [| done]. intros i. rewrite Hs. by apply close_ref_closed.
Qed.

Lemma idle_tidy h : idle h -> tidy h.
Proof.
  intros (Hc & _ & _). split.
  - intros i Ho. by rewrite Hc in Ho.
  - intros _. exact Hc.
Qed.

Lemma tidy_fire H e h h' :
  H ∈ Lifecycle.hooks -> tidy h -> Lifecycle.fire H e h = Some h' -> tidy h'.
Proof.
  intros HH Ht Hf. destruct e as [env | | es | es | env]; simpl in Hf.
  - injection Hf as <-. by apply tidy_connect.
  - injection Hf as <-. by apply idle_tidy, idle_disconnect.
  - destruct (SSE.is_open es h) eqn:Ho; [| done]. injection Hf as <-.
    destruct (onopen_shape H h HH) as (Hs & Hr & Htm & _).
    destruct Ht as [Hone Hnone]. split.
    + intros i. rewrite Hs, Hr. apply Hone.
    + rewrite Htm, Hs. apply Hnone.
  - destruct (SSE.is_open es h) eqn:Ho; [| done]. injection Hf as <-.
    destruct (onerror_shape H es h HH) as (Hs & Hr & _).
    destruct Ht as [Hone Hnone].
    assert (forall i, Lifecycle.open_in (SSE.sources (after (Lifecycle.onerror H es) h)) i
                      = false) as Hclosed.
    { intros i. destruct (Lifecycle.open_in _ i) eqn:Hi; [| done]. exfalso.
      rewrite Hs in Hi. apply open_in_alter in Hi as [Hne Hi].
      apply Hone in Hi. apply Hone in Ho. congruence. }
    split; [| done]. intros i Hi. by rewrite Hclosed in Hi.
  - destruct (SSE.reconnectTimeoutRef h); [| done]. injection Hf as <-.
    by apply tidy_connect.
Qed.

Lemma tidy_reachable H callbacks options h :
  H ∈ Lifecycle.hooks -> Lifecycle.reachable H callbacks options h -> tidy h.
Proof.
  intros HH Hr. induction Hr as [| h e h' _ IH Hf].
  - split; [intros i Ho; by destruct i | by intros [? ?]].
  - by eapply tidy_fire.
Qed.

(** X1. A hook never holds two live connections: in every state a hook
    reaches, the only source that can be open is the one
    [eventSourceRef] designates. *)
Theorem X1_at_most_one_open_source
    (H : Lifecycle.Handlers) (callbacks : SSE.SSECallbacks) (options : SSE.SSEOptions)
    (h : SSE.Hook) :
  H ∈ Lifecycle.hooks ->
  Lifecycle.reachable H callbacks options h ->
  (forall i, SSE.is_open i h = true -> SSE.eventSourceRef h = Some i) /\
  (forall i j, SSE.is_open i h = true -> SSE.is_open j h = true -> i = j).
Proof.
  intros HH Hr. destruct (tidy_reachable _ _ _ _ HH Hr) as [Hone _].
  split; [exact Hone |].
  intros i j Hi Hj. apply Hone in Hi, Hj. congruence.
Qed.

(** X2. While a reconnect timeout is designated no source is open, so
    the reconnect it triggers never runs beside a live connection. *)
Theorem X2_no_timeout_beside_open_source
    (H : Lifecycle.Handlers) (callbacks : SSE.SSECallbacks) (options : SSE.SSEOptions)
    (h : SSE.Hook) (d : Z) (i : nat) :
  H ∈ Lifecycle.hooks ->
  Lifecycle.reachable H callbacks options h ->
  SSE.reconnectTimeoutRef h = Some d ->
  SSE.is_open i h = false.
Proof.
  intros HH Hr Htm. destruct (tidy_reachable _ _ _ _ HH Hr) as [_ Hnone].
  apply Hnone. by rewrite Htm.
Qed.

(** ** The retry counter *)

Lemma ceiling_fire H e h h' :
  H ∈ Lifecycle.hooks -> Lifecycle.fire H e h = Some h' ->
  SSE.optsRef h' = SSE.optsRef h /\
  (0 <= SSE.reconnectAttempts h <= Z.max 0 (SSE.maxAttempts h) ->
   0 <= SSE.reconnectAttempts h' <= Z.max 0 (SSE.maxAttempts h)).
Proof.
  intros HH Hf. destruct e as [env | | es | es | env]; simpl in Hf.
  - injection Hf as <-. destruct (connect_shape H env h HH) as (_ & _ & _ & Hn & Ho & _).
    rewrite Hn. by split.
  - injection Hf as <-. destruct (disconnect_shape H h HH) as (_ & _ & _ & Ho & _ & Hn).
    split; [done |]. destruct Hn as [-> | ->]; lia.
  - destruct (SSE.is_open es h); [| done]. injection Hf as <-.
    destruct (onopen_shape H h HH) as (_ & _ & _ & Hn & Ho & _).
    rewrite Hn. split; [done | lia].
  - destruct (SSE.is_open es h); [| done]. injection Hf as <-.
    destruct (onerror_shape H es h HH) as (_ & _ & Ho & Hcase).
    split; [done |]. unfold SSE.may_retry in Hcase.
    destruct (JS.truthy_bool _); simpl in Hcase.
    + destruct (SSE.reconnectAttempts h <? SSE.maxAttempts h) eqn:Hlt.
      * destruct Hcase as (-> & _). apply Z.ltb_lt in Hlt. lia.
      * destruct Hcase as (-> & _). done.
    + destruct Hcase as (-> & _). done.
  - destruct (SSE.reconnectTimeoutRef h); [| done]. injection Hf as <-.
    destruct (connect_shape H env h HH) as (_ & _ & _ & Hn & Ho & _).
    rewrite Hn. by split.
Qed.

(** X3. The retry counter stays between [0] and the ceiling in force
    (the configured maximum, [10] by default): whatever the order of
    errors, opens, timeouts and manual calls, a hook never counts more
    automatic attempts than the ceiling. *)
Theorem X3_attempts_within_ceiling
    (H : Lifecycle.Handlers) (callbacks : SSE.SSECallbacks) (options : SSE.SSEOptions)
    (h : SSE.Hook) :
  H ∈ Lifecycle.hooks ->
  Lifecycle.reachable H callbacks options h ->
  SSE.maxAttempts h = ceiling options /\
  0 <= SSE.reconnectAttempts h <= Z.max 0 (ceiling options).
Proof.
  intros HH Hr. induction Hr as [| h e h' _ [IHo IHn] Hf].
  - split; [reflexivity | simpl; lia].
  - destruct (ceiling_fire H e h h' HH Hf) as [Ho Hn].
    unfold SSE.maxAttempts in *. rewrite Ho. split; [done |].
    rewrite <- IHo. apply Hn. by rewrite IHo.
Qed.

(** ** Giving up *)

Lemma fail_retry (h : SSE.Hook) :
  JS.truthy_bool (SSE.autoReconnect (SSE.optsRef h)) = true ->
  SSE.reconnectAttempts h < SSE.maxAttempts h ->
  let h' := Lifecycle.fail h in
  SSE.optsRef h' = SSE.optsRef h /\
  SSE.reconnectAttempts h' = SSE.reconnectAttempts h + 1 /\
  SSE.reconnectTimeoutRef h' = Some (SSE.delay h) /\
  SSE.status h' = error.
Proof.
  intros Hauto Hlt. unfold Lifecycle.fail, useSSE_timer_fires.
  assert (Lifecycle.useSSE ∈ Lifecycle.hooks) as HH by (by constructor).
  set (h1 := match SSE.reconnectTimeoutRef h with
             | Some _ => after (SSE.UseSSE.connect None) h
             | None => h
             end).
  assert (SSE.optsRef h1 = SSE.optsRef h /\
          SSE.reconnectAttempts h1 = SSE.reconnectAttempts h) as [Ho Hn].
  { subst h1. destruct (SSE.reconnectTimeoutRef h); [| done].
    by destruct (connect_shape Lifecycle.useSSE None h HH) as (_ & _ & _ & ? & ? & _). }
  destruct (onerror_shape Lifecycle.useSSE (current_source h1) h1 HH)
    as (_ & _ & Ho' & Hcase).
  assert (SSE.may_retry h1 = true) as Hretry.
  { unfold SSE.may_retry, SSE.maxAttempts in *. rewrite Ho, Hn, Hauto. simpl.
    apply Z.ltb_lt. lia. }
  rewrite Hretry in Hcase. destruct Hcase as (Hn' & Htm & Hst).
  simpl in *. unfold SSE.delay in *. rewrite Ho', Hn', Htm, Ho, Hn. done.
Qed.

Lemma fail_exhausted (h : SSE.Hook) :
  SSE.maxAttempts h <= SSE.reconnectAttempts h ->
  let h' := Lifecycle.fail h in
  SSE.optsRef h' = SSE.optsRef h /\
  SSE.reconnectAttempts h' = SSE.reconnectAttempts h /\
  SSE.reconnectTimeoutRef h' = None /\
  SSE.status h' = disconnected.
Proof.
  intros Hmax. unfold Lifecycle.fail, useSSE_timer_fires.
  assert (Lifecycle.useSSE ∈ Lifecycle.hooks) as HH by (by constructor).
  set (h1 := match SSE.reconnectTimeoutRef h with
             | Some _ => after (SSE.UseSSE.connect None) h
             | None => h
             end).
  assert (SSE.optsRef h1 = SSE.optsRef h /\
          SSE.reconnectAttempts h1 = SSE.reconnectAttempts h /\
          SSE.reconnectTimeoutRef h1 = None) as (Ho & Hn & Htm).
  { subst h1. destruct (SSE.reconnectTimeoutRef h) eqn:Ht; [| done].
    by destruct (connect_shape Lifecycle.useSSE None h HH) as (_ & _ & ? & ? & ? & _). }
  destruct (onerror_shape Lifecycle.useSSE (current_source h1) h1 HH)
    as (_ & _ & Ho' & Hcase).
  assert (SSE.may_retry h1 = false) as Hretry.
  { unfold SSE.may_retry, SSE.maxAttempts in *. rewrite Ho, Hn.
    apply andb_false_iff. right. apply Z.ltb_ge. lia. }
  rewrite Hretry in Hcase. destruct Hcase as (Hn' & Htm' & Hst).
  simpl in *. rewrite Ho', Hn', Htm', Ho, Hn, Htm. repeat split.
  destruct Hst as [Hst | (_ & _ & Hlt)]; [done |].
  unfold SSE.maxAttempts in *. rewrite Ho, Hn in Hlt. lia.
Qed.

(** X4. With auto-reconnect on and a ceiling of [m] attempts, a
    [useSSE] connection that keeps failing is retried exactly [m] times:
    after each of the first [m] failures the counter goes up by one and a
    reconnect is scheduled after the configured delay; the failure after
    that ends in [disconnected] with nothing scheduled. *)
Theorem X4_gives_up_after_ceiling (h : SSE.Hook) (m : nat) :
  JS.truthy_bool (SSE.autoReconnect (SSE.optsRef h)) = true ->
  SSE.reconnectAttempts h = 0 ->
  SSE.maxAttempts h = Z.of_nat m ->
  (forall k : nat, (0 < k <= m)%nat ->
     let hk := Nat.iter k Lifecycle.fail h in
     SSE.reconnectAttempts hk = Z.of_nat k /\
     SSE.reconnectTimeoutRef hk = Some (SSE.delay h) /\
     SSE.status hk = error) /\
  (let h' := Nat.iter (S m) Lifecycle.fail h in
   SSE.reconnectAttempts h' = Z.of_nat m /\
   SSE.reconnectTimeoutRef h' = None /\
   SSE.status h' = disconnected).
Proof.
  intros Hauto Hzero Hmax.
  assert (forall k : nat, (k <= m)%nat ->
            SSE.optsRef (Nat.iter k Lifecycle.fail h) = SSE.optsRef h /\
            SSE.reconnectAttempts (Nat.iter k Lifecycle.fail h) = Z.of_nat k /\
            ((0 < k)%nat ->
             SSE.reconnectTimeoutRef (Nat.iter k Lifecycle.fail h) = Some (SSE.delay h) /\
             SSE.status (Nat.iter k Lifecycle.fail h) = error)) as Hiter.
  { induction k as [| k IH]; intros Hk.
    - simpl. split; [done |]. split; [lia |]. lia.
    - destruct IH as (Ho & Hn & _); [lia |]. simpl.
      destruct (fail_retry (Nat.iter k Lifecycle.fail h)) as (Ho' & Hn' & Htm & Hst).
      + by rewrite Ho.
      + unfold SSE.maxAttempts in *. rewrite Ho, Hn, Hmax. lia.
      + unfold SSE.delay in *. rewrite Ho', Hn', Htm, Hst, Ho, Hn.
        split; [done |]. split; [lia |]. by intros _. }
  split.
  - intros k Hk hk. subst hk. destruct (Hiter k) as (_ & Hn & Hrest); [lia |].
    destruct Hrest as [Htm Hst]; [lia |]. done.
  - destruct (Hiter m) as (Ho & Hn & _); [lia |]. simpl.
    destruct (fail_exhausted (Nat.iter m Lifecycle.fail h)) as (_ & Hn' & Htm & Hst).
    + unfold SSE.maxAttempts in *. rewrite Ho, Hn, Hmax. lia.
    + by rewrite Hn', Htm, Hst, Hn.
Qed.

(** X5. A manual reconnect does not give the retries back.  In every
    state of each of the three hooks [connect] leaves the retry counter
    as it is.  What sets the counter to [0] is an open of the source, in
    the three hooks, and [disconnect] in [useSSE] only: [disconnect] of
    the per-kind hooks keeps it.  So after the retries are used up, a
    reconnect that fails before the source opens ends in [disconnected]
    at once, with nothing scheduled and the counter unchanged. *)
Theorem X5_reconnect_keeps_counter
    (H : Lifecycle.Handlers) (env : option string) (h : SSE.Hook) :
  H ∈ Lifecycle.hooks ->
  let h1 := after (Lifecycle.connect H env) h in
  let failed := after (Lifecycle.onerror H (current_source h1)) h1 in
  let opened := after (Lifecycle.onopen H) h1 in
  let stopped := after (Lifecycle.disconnect H) h in
  SSE.reconnectAttempts h1 = SSE.reconnectAttempts h /\
  SSE.reconnectAttempts opened = 0 /\
  (H = Lifecycle.useSSE -> SSE.reconnectAttempts stopped = 0) /\
  (H ∈ per_kind_hooks -> SSE.reconnectAttempts stopped = SSE.reconnectAttempts h) /\
  (SSE.maxAttempts h <= SSE.reconnectAttempts h ->
   SSE.status failed = disconnected /\
   SSE.reconnectTimeoutRef failed = None /\
   SSE.reconnectAttempts failed = SSE.reconnectAttempts h).
Proof.
  intros HH h1 failed opened stopped.
  destruct (connect_shape H env h HH) as (_ & _ & Htm & Hn & Ho & _). fold h1 in Htm, Hn, Ho.
  destruct (onerror_shape H (current_source h1) h1 HH) as (_ & _ & _ & Hcase).
  fold failed in Hcase.
  destruct (onopen_shape H h1 HH) as (_ & _ & _ & Hopen & _). fold opened in Hopen.
  split; [done |]. split; [done |]. split; [| split].
  - intros ->. subst stopped. clear.
    destruct h as [srcs ref n tm [cT cC cE cS] opts st le].
    cbn. stmt_unfold. by destruct tm, ref, cS.
  - intros Hkind. subst stopped. clear -Hkind.
    destruct h as [srcs ref n tm [cT cC cE cS] opts st le].
    unfold per_kind_hooks in Hkind.
    repeat (apply elem_of_cons in Hkind as [-> | Hkind]); [| | by apply elem_of_nil in Hkind];
      cbn; stmt_unfold; by destruct tm, ref.
  - intros Hmax.
    assert (SSE.may_retry h1 = false) as Hretry.
    { unfold SSE.may_retry, SSE.maxAttempts in *. rewrite Ho, Hn.
      apply andb_false_iff. right. apply Z.ltb_ge. lia. }
    rewrite Hretry in Hcase. destruct Hcase as (Hn' & Htm' & Hst).
    rewrite Hn', Htm', Htm, Hn. repeat split.
    destruct Hst as [Hst | (_ & _ & Hlt)]; [done |].
    unfold SSE.maxAttempts in *. rewrite Ho, Hn in Hlt. lia.
Qed.

(** X6. [disconnect] of the per-kind hooks is idempotent like the one of
    [useSSE], but it keeps the retry counter: switching such a stream off
    and on does not reset the attempts already used. *)
Theorem X6_per_kind_disconnect_keeps_counter (H : Lifecycle.Handlers) (h : SSE.Hook) :
  H ∈ per_kind_hooks ->
  let h1 := after (Lifecycle.disconnect H) h in
  SSE.reconnectAttempts h1 = SSE.reconnectAttempts h /\
  SSE.status h1 = disconnected /\
  SSE.reconnectTimeoutRef h1 = None /\
  SSE.eventSourceRef h1 = None /\
  after (Lifecycle.disconnect H) h1 = h1 /\
  SSE.reconnectAttempts (after (Lifecycle.connect H None) h1) = SSE.reconnectAttempts h.
Proof.
  intros HH. destruct h as [srcs ref n tm [cT cC cE cS] opts st le].
  unfold per_kind_hooks in HH.
  repeat (apply elem_of_cons in HH as [-> | HH]); [| | by apply elem_of_nil in HH];
    cbn; stmt_unfold;
    unfold SSE.UseTransferStream.connect, SSE.UseCoordinatedStream.connect,
      SSE.UseTransferStream.closeExisting, SSE.UseCoordinatedStream.closeExisting,
      SSE.newEventSource; stmt_unfold;
    destruct tm, ref; cbn; repeat split.
Qed.

(** ** Switching streams on the live page *)

Lemma handlers_hooks k : LiveStreams.handlers k ∈ Lifecycle.hooks.
Proof. destruct k; unfold Lifecycle.hooks; simpl; by repeat constructor. Qed.

Lemma tidy_render options h : tidy (render options h) <-> tidy h.
Proof. by destruct h. Qed.

Lemma idle_render options h : idle (render options h) <-> idle h.
Proof. by destruct h. Qed.

Lemma stream_setStreamType selected k s :
  LiveStreams.stream k (LiveStreams.setStreamType selected s) =
  LiveStreams.rerender (LiveStreams.streamType s) selected k (LiveStreams.stream k s).
Proof. by destruct k. Qed.

Lemma stream_set_stream k k' h s :
  LiveStreams.stream k' (LiveStreams.set_stream k h s) =
  if decide (k = k') then h else LiveStreams.stream k' s.
Proof. by destruct k, k'. Qed.

Lemma rerender_spec old selected k h :
  tidy h ->
  (k <> old -> idle h) ->
  let h' := LiveStreams.rerender old selected k h in
  tidy h' /\
  SSE.optsRef h' = SSE.spread SSE.DEFAULT_OPTIONS (LiveStreams.options selected k) /\
  (k <> selected -> idle h') /\
  (k = selected -> k <> old ->
   SSE.status h' = connecting /\
   exists i, SSE.eventSourceRef h' = Some i /\ SSE.is_open i h' = true).
Proof.
  intros Ht Hidle. unfold LiveStreams.rerender.
  pose proof (handlers_hooks k) as HH.
  set (h1 := render (LiveStreams.options selected k) h).
  assert (tidy h1) as Ht1 by (by apply tidy_render).
  assert (SSE.optsRef h1 =
          SSE.spread SSE.DEFAULT_OPTIONS (LiveStreams.options selected k)) as Ho1
    by (by destruct h).
  case_bool_decide as Hsame.
  - split; [done |]. split; [done |]. split.
    + intros Hk. apply idle_render, Hidle. intros ->.
      rewrite bool_decide_eq_true_2 in Hsame by done.
      symmetry in Hsame. by apply bool_decide_eq_true in Hsame.
    + intros -> Hold. rewrite (bool_decide_eq_true_2 (selected = selected)) in Hsame by done.
      by apply bool_decide_eq_true in Hsame.
  - set (h2 := after (Lifecycle.disconnect (LiveStreams.handlers k)) h1).
    pose proof (idle_disconnect _ h1 HH Ht1) as Hidle2. fold h2 in Hidle2.
    destruct (disconnect_shape _ h1 HH) as (_ & _ & _ & Ho2 & _). fold h2 in Ho2.
    unfold LiveStreams.effect. rewrite Ho2, Ho1. simpl.
    destruct (decide (selected = k)) as [Hsel | Hsel];
      [rewrite (bool_decide_eq_true_2 (selected = k)) by done
      | rewrite (bool_decide_eq_false_2 (selected = k)) by done].
    + destruct (connect_shape _ None h2 HH) as ([u Hs] & Hr & _ & _ & Ho3 & Hst).
      split; [by apply tidy_connect, idle_tidy |].
      split; [by rewrite Ho3, Ho2 |]. split; [done |]. intros _ _.
      split; [done |]. eexists. split; [exact Hr |].
      unfold SSE.is_open. rewrite Hs, <- close_ref_length.
      by rewrite lookup_app_r, Nat.sub_diag by done.
    + pose proof (idle_disconnect _ h2 HH (idle_tidy _ Hidle2)) as Hidle3.
      destruct (disconnect_shape _ h2 HH) as (_ & _ & _ & Ho3 & _).
      split; [by apply idle_tidy |]. split; [by rewrite Ho3, Ho2 |].
      split; [done |]. intros Hk. by subst.
Qed.

Lemma orderly_initial : orderly LiveStreams.initial.
Proof.
  intros k. destruct k; simpl.
  - split; [| split; [reflexivity | done]].
    split; [intros [| [| i]] Ho; done | by intros [? ?]].
  - split; [| split; [reflexivity |]]; intros; repeat split; try done;
      try (by intros [| i]); try (by intros [? ?]); by intros [| i] ?.
  - split; [| split; [reflexivity |]]; intros; repeat split; try done;
      try (by intros [| i]); try (by intros [? ?]); by intros [| i] ?.
Qed.

Lemma orderly_fire s e s' :
  orderly s -> LiveStreams.fire e s = Some s' -> orderly s'.
Proof.
  intros Hs Hf. destruct e as [selected | k e]; simpl in Hf.
  - injection Hf as <-. intros k. rewrite stream_setStreamType. simpl.
    destruct (Hs k) as (Ht & _ & Hidle).
    destruct (rerender_spec (LiveStreams.streamType s) selected k _ Ht Hidle)
      as (? & ? & ? & _).
    done.
  - destruct (LiveStreams.from_network e) eqn:Hnet; [| done].
    destruct (Lifecycle.fire _ e _) as [h |] eqn:Hfire; [| done].
    injection Hf as <-. intros k'. rewrite stream_set_stream.
    assert (LiveStreams.streamType (LiveStreams.set_stream k h s) = LiveStreams.streamType s)
      as -> by (by destruct k).
    case_decide as Hk; [subst k' | apply Hs].
    destruct (Hs k) as (Ht & Ho & Hidle).
    destruct (decide (k = LiveStreams.streamType s)) as [Hsel | Hother].
    + split; [by eapply tidy_fire; [apply handlers_hooks | |] |].
      split; [| done].
      destruct (ceiling_fire _ _ _ _ (handlers_hooks k) Hfire) as [-> _]. done.
    + exfalso. destruct (Hidle Hother) as (Hclosed & Htm & _).
      destruct e as [env | | es | es | env]; simpl in Hfire, Hnet; try done.
      * unfold SSE.is_open in Hfire. specialize (Hclosed es).
        unfold Lifecycle.open_in in Hclosed. by rewrite Hclosed in Hfire.
      * unfold SSE.is_open in Hfire. specialize (Hclosed es).
        unfold Lifecycle.open_in in Hclosed. by rewrite Hclosed in Hfire.
      * by rewrite Htm in Hfire.
Qed.

Lemma orderly_reachable s : LiveStreams.reachable s -> orderly s.
Proof.
  induction 1 as [| s e s' _ IH Hf]; [apply orderly_initial | by eapply orderly_fire].
Qed.

(** The hooks that are not selected are idle, and the status shown is
    that of the selected one. *)
Lemma selected_stream_shown s (Hr : LiveStreams.reachable s) k :
  (k <> LiveStreams.streamType s ->
   (forall i, SSE.is_open i (LiveStreams.stream k s) = false) /\
   SSE.reconnectTimeoutRef (LiveStreams.stream k s) = None /\
   SSE.status (LiveStreams.stream k s) = disconnected) /\
  LiveStreams.getConnectionStatus s =
    SSE.status (LiveStreams.stream (LiveStreams.streamType s) s).
Proof.
  destruct (orderly_reachable s Hr k) as (_ & _ & Hidle).
  split; [exact Hidle |].
  unfold LiveStreams.getConnectionStatus. by destruct (LiveStreams.streamType s).
Qed.

(** X7. On the live page only the selected stream can be connected: in
    every state the page reaches, the two hooks that are not selected
    have no open source, no reconnect scheduled and status
    [disconnected], and the selected one has at most one open source,
    whose status is the one the page displays. *)
Theorem X7_only_selected_stream_connected (s : LiveStreams.Streams) (k : LiveStreams.StreamType) :
  LiveStreams.reachable s ->
  (k <> LiveStreams.streamType s ->
   (forall i, SSE.is_open i (LiveStreams.stream k s) = false) /\
   SSE.reconnectTimeoutRef (LiveStreams.stream k s) = None /\
   SSE.status (LiveStreams.stream k s) = disconnected) /\
  (forall i j,
     SSE.is_open i (LiveStreams.stream k s) = true ->
     SSE.is_open j (LiveStreams.stream k s) = true -> i = j) /\
  LiveStreams.getConnectionStatus s =
    SSE.status (LiveStreams.stream (LiveStreams.streamType s) s).
Proof.
  intros Hr. destruct (orderly_reachable s Hr k) as ([Hone _] & _ & Hidle).
  split; [exact Hidle |]. split.
  - intros i j Hi Hj. apply Hone in Hi, Hj. congruence.
  - unfold LiveStreams.getConnectionStatus. by destruct (LiveStreams.streamType s).
Qed.

(** X8. Picking another stream closes the old connection and opens the
    new one in the same step: afterwards the page shows [connecting], the
    newly selected hook has an open source, and the hook selected before
    is closed with nothing scheduled.  Picking the stream that is already
    selected changes nothing. *)
Theorem X8_switching_streams (s : LiveStreams.Streams) (selected : LiveStreams.StreamType) :
  LiveStreams.reachable s ->
  let s' := LiveStreams.setStreamType selected s in
  (selected <> LiveStreams.streamType s ->
   LiveStreams.getConnectionStatus s' = connecting /\
   (exists i, SSE.is_open i (LiveStreams.stream selected s') = true) /\
   (forall i, SSE.is_open i (LiveStreams.stream (LiveStreams.streamType s) s') = false) /\
   SSE.reconnectTimeoutRef (LiveStreams.stream (LiveStreams.streamType s) s') = None) /\
  (selected = LiveStreams.streamType s -> s' = s).
Proof.
  intros Hr s'. pose proof (orderly_reachable s Hr) as Hs. split.
  - intros Hne.
    assert (LiveStreams.reachable s') as Hr'
      by (by eapply (LiveStreams.reach_fire s (LiveStreams.Pick selected))).
    destruct (selected_stream_shown s' Hr' (LiveStreams.streamType s))
      as (Hold & Hshown).
    destruct (Hs selected) as (Ht & _ & Hidle).
    destruct (rerender_spec (LiveStreams.streamType s) selected selected _ Ht Hidle)
      as (_ & _ & _ & Hnew).
    destruct Hnew as (Hst & i & _ & Hopen); [done | done |].
    rewrite <- stream_setStreamType in Hst, Hopen. fold s' in Hst, Hopen.
    split; [by rewrite Hshown |]. split; [by exists i |].
    destruct Hold as (Hclosed & Htm & _); [by intros ? |]. done.
  - intros ->. subst s'. destruct s as [cur a t c]. simpl in *.
    unfold LiveStreams.setStreamType, LiveStreams.rerender. simpl.
    rewrite !bool_decide_eq_true_2 by done.
    pose proof (Hs LiveStreams.all) as (_ & Ha & _).
    pose proof (Hs LiveStreams.transfers) as (_ & Htr & _).
    pose proof (Hs LiveStreams.coordinated) as (_ & Hc & _).
    simpl in Ha, Htr, Hc. unfold render. rewrite <- Ha, <- Htr, <- Hc.
    by destruct a, t, c.
Qed.

(** ** The dashboard lists *)

Lemma handleTransfer_unpaused d p :
  Dashboard.isPaused p = false ->
  (Dashboard.handleTransfer d p).1 =
  Dashboard.mkPage (d :: take 49 (Dashboard.recentTransfers p))
    (Dashboard.recentCoordinated p) (Dashboard.seenCoordinated p)
    (Dashboard.mkStats (Dashboard.transferCount (Dashboard.stats p) + 1)
       (Dashboard.coordinatedCount (Dashboard.stats p)))
    false.
Proof.
  intros Hp. unfold Dashboard.handleTransfer. rewrite Hp. simpl.
  by rewrite slice_prefix by (unfold Dashboard.MAX_LIVE_TRANSFERS; lia).
Qed.

(** A burst of transfers on a page that is not paused. *)
Lemma transfer_burst (evs : list TransferEvent.t) (p : Dashboard.Page) :
  Dashboard.isPaused p = false ->
  (length (Dashboard.recentTransfers p) <= 50)%nat ->
  let p' := Dashboard.run (Dashboard.Transfer <$> evs) p in
  Dashboard.recentTransfers p' = take 50 (reverse evs ++ Dashboard.recentTransfers p) /\
  Dashboard.transferCount (Dashboard.stats p') =
    Dashboard.transferCount (Dashboard.stats p) + Z.of_nat (length evs) /\
  Dashboard.coordinatedCount (Dashboard.stats p') =
    Dashboard.coordinatedCount (Dashboard.stats p) /\
  Dashboard.recentCoordinated p' = Dashboard.recentCoordinated p /\
  Dashboard.seenCoordinated p' = Dashboard.seenCoordinated p.
Proof.
  intros Hp Hlen. induction evs as [| e evs IH] using rev_ind.
  - simpl. rewrite Z.add_0_r. split; [by rewrite take_ge | done].
  - cbv zeta in *. rewrite fmap_app.
    change (Dashboard.Transfer <$> [e]) with [Dashboard.Transfer e].
    rewrite run_snoc. unfold Dashboard.step.
    rewrite handleTransfer_unpaused by (by rewrite run_transfers_paused).
    destruct IH as (Hl & Hn & Hc & Hrc & Hs).
    cbn [Dashboard.recentTransfers Dashboard.recentCoordinated Dashboard.seenCoordinated
         Dashboard.stats Dashboard.transferCount Dashboard.coordinatedCount].
    rewrite Hl, Hn, Hc, Hrc, Hs, reverse_snoc, length_app.
    split; [apply (cons_take_pred 49) |].
    split; [simpl; lia | done].
Qed.

(** X9. On a page that is not paused, a burst of transfers is counted in
    full while the list keeps the newest 50: the counter goes up by the
    number of arrivals (duplicates included, whether or not the list is
    full), the list is the arrivals newest first followed by what was
    there, cut to 50, and the coordinated list and key memory are as
    before. *)
Theorem X9_transfer_burst (evs : list TransferEvent.t) (p : Dashboard.Page) :
  Dashboard.isPaused p = false ->
  (length (Dashboard.recentTransfers p) <= 50)%nat ->
  let p' := Dashboard.run (Dashboard.Transfer <$> evs) p in
  Dashboard.recentTransfers p' = take 50 (reverse evs ++ Dashboard.recentTransfers p) /\
  Dashboard.transferCount (Dashboard.stats p') =
    Dashboard.transferCount (Dashboard.stats p) + Z.of_nat (length evs) /\
  Dashboard.coordinatedCount (Dashboard.stats p') =
    Dashboard.coordinatedCount (Dashboard.stats p) /\
  Dashboard.recentCoordinated p' = Dashboard.recentCoordinated p /\
  Dashboard.seenCoordinated p' = Dashboard.seenCoordinated p.
Proof. apply transfer_burst. Qed.

Lemma admitItem_empty item : LiveFeed.admitItem item [] = [item].
Proof.
  unfold LiveFeed.admitItem.
  destruct item as [d | c]; simpl; rewrite ?andb_false_r;
    by rewrite slice_prefix by (unfold LiveFeed.MAX_FEED_ITEMS; lia).
Qed.

(** X10. Clearing does not clear the key memory of the dashboard: after
    [handleClearLive] the lists are empty, yet a coordinated trade that
    was on the list (and carries an instant) is still rejected when it
    arrives again.  On the live page, where the list itself is the
    memory, the first arrival after [clearFeed] is always admitted. *)
Theorem X10_clear_keeps_key_memory
    (acts : list Dashboard.Action) (now : string) (d : CoordinatedTrade.t) (t : string) :
  let p := Dashboard.run acts Dashboard.initial in
  let cleared := (Dashboard.handleClearLive p).1 in
  d ∈ Dashboard.recentCoordinated p ->
  instant d = Some t ->
  Dashboard.recentCoordinated cleared = [] /\
  Dashboard.recentTransfers cleared = [] /\
  Dashboard.handleCoordinated now d cleared = (cleared, []) /\
  (forall audio item q,
     LiveFeed.feedItems (LiveFeed.addFeedItem audio item (LiveFeed.clearFeed q).1).1 = [item]).
Proof.
  intros p cleared Hin Ht. split; [done |]. split; [done |]. split.
  - apply handleCoordinated_skips. right. apply has_true.
    rewrite (instant_key _ _ _ Ht).
    change (Dashboard.seenCoordinated cleared) with (Dashboard.seenCoordinated p).
    apply buffered_key_seen; [apply remembers_run | done | done].
  - intros audio item q. apply admitItem_empty.
Qed.

(** X11. What arrives while the dashboard is paused is dropped for good:
    a paused page ignores any run of arrivals (no list, counter or key
    changes, so nothing is replayed and no key is remembered), and pause,
    arrivals, resume gives back the page as it was.  A paused live page
    ignores an arrival too, sound included. *)
Theorem X11_paused_arrivals_are_dropped
    (arrivals : list Dashboard.Action) (p : Dashboard.Page) :
  forallb is_arrival arrivals = true ->
  (Dashboard.isPaused p = true -> Dashboard.run arrivals p = p) /\
  (Dashboard.isPaused p = false ->
   Dashboard.run (Dashboard.TogglePause :: arrivals ++ [Dashboard.TogglePause]) p = p) /\
  (forall audio e c q, LiveFeed.isPaused q = true ->
     LiveFeed.onTransfer audio e q = (q, []) /\
     LiveFeed.onCoordinated audio c q = (q, [])).
Proof.
  intros Harr.
  assert (forall q, Dashboard.isPaused q = true -> Dashboard.run arrivals q = q) as Hdrop.
  { induction arrivals as [| a arrivals IH]; intros q Hq; [done |].
    simpl in Harr. apply andb_true_iff in Harr as [Ha Harr].
    rewrite run_cons.
    assert (Dashboard.step q a = q) as ->; [| by apply IH].
    destruct a as [e | now c | |]; simpl in *; try done.
    - unfold Dashboard.handleTransfer. by rewrite Hq.
    - unfold Dashboard.handleCoordinated. by rewrite Hq. }
  split; [apply Hdrop |]. split.
  - intros Hp. rewrite run_cons, run_snoc.
    rewrite Hdrop by (simpl; by rewrite Hp).
    destruct p as [rt rc seen st paused]. simpl in *. by subst.
  - intros audio e c q Hq. unfold LiveFeed.onTransfer, LiveFeed.onCoordinated.
    by rewrite Hq.
Qed.

(** ** No duplicates on display *)

Lemma add_NoDup k s : NoDup s -> NoDup (JS.add k s).
Proof.
  intros Hs. unfold JS.add. destruct (JS.has k s) eqn:Hk; [done |].
  apply NoDup_app. split; [done |]. split; [| apply NoDup_singleton].
  intros x Hx Hx'. apply list_elem_of_singleton in Hx'. subst x.
  apply has_true in Hx. congruence.
Qed.

Lemma prune_NoDup s : NoDup s -> NoDup (Dashboard.prune s).
Proof.
  intros Hs. rewrite prune_spec. case_decide; [| done].
  eapply sublist_NoDup; [done | apply sublist_drop].
Qed.

Lemma seen_NoDup acts : NoDup (Dashboard.seenCoordinated (Dashboard.run acts Dashboard.initial)).
Proof.
  induction acts as [| a acts IH] using rev_ind; [apply NoDup_nil_2 |].
  rewrite run_snoc. destruct a as [e | now c | |]; simpl; try done.
  - unfold Dashboard.handleTransfer. by destruct (Dashboard.isPaused _).
  - unfold Dashboard.handleCoordinated. destruct (Dashboard.isPaused _); [done |].
    destruct (JS.has _ _); [done |]. simpl. by apply prune_NoDup, add_NoDup.
Qed.

(** X12. The coordinated list of the dashboard never shows a trade
    twice: in every state the page reaches, two different positions of
    the list never hold trades with the same token address and the same
    instant. *)
Theorem X12_coordinated_list_without_duplicates
    (acts : list Dashboard.Action) (i j : nat) (d d' : CoordinatedTrade.t) (t : string) :
  let p := Dashboard.run acts Dashboard.initial in
  Dashboard.recentCoordinated p !! i = Some d ->
  Dashboard.recentCoordinated p !! j = Some d' ->
  CoordinatedTrade.tokenAddress d = CoordinatedTrade.tokenAddress d' ->
  instant d = Some t -> instant d' = Some t ->
  i = j.
Proof.
  intros p Hi Hj Htok Ht Ht'.
  destruct (remembers_run acts) as (ks & Hks & Hsuf). fold p in Hks, Hsuf.
  assert (NoDup ks) as Hnd.
  { assert (NoDup (reverse ks)) as Hrev.
    { eapply sublist_NoDup; [apply (seen_NoDup acts) |]. fold p.
      destruct Hsuf as [pre ->]. by apply sublist_inserts_l. }
    by rewrite reverse_Permutation in Hrev. }
  destruct (Forall2_lookup_l _ _ _ _ _ Hks Hi) as (k & Hk & now & Hkey).
  destruct (Forall2_lookup_l _ _ _ _ _ Hks Hj) as (k' & Hk' & now' & Hkey').
  rewrite (instant_key _ _ _ Ht) in Hkey. rewrite (instant_key _ _ _ Ht') in Hkey'.
  subst k k'. rewrite <- Htok in Hk'.
  by eapply NoDup_lookup.
Qed.

Lemma duplicate_free_take n feed : duplicate_free feed -> duplicate_free (take n feed).
Proof.
  intros [Ht Hc]. split; intros i j d d' Hi Hj.
  - apply lookup_take_Some in Hi as [Hi _]. apply lookup_take_Some in Hj as [Hj _]. eauto.
  - apply lookup_take_Some in Hi as [Hi _]. apply lookup_take_Some in Hj as [Hj _]. eauto.
Qed.

Lemma duplicate_free_admitItem item feed :
  duplicate_free feed -> duplicate_free (LiveFeed.admitItem item feed).
Proof.
  intros Hfree. unfold LiveFeed.admitItem.
  destruct item as [d | c].
  - destruct (JS.truthy (TransferEvent.signature d)) eqn:Hsig; simpl.
    + destruct (LiveFeed.isDuplicateTransfer d feed) eqn:Hdup; [done |].
      rewrite slice_prefix by (unfold LiveFeed.MAX_FEED_ITEMS; lia).
      apply duplicate_free_take. destruct Hfree as [Ht Hc].
      assert (forall k x, feed !! k = Some (LiveFeed.transfer x) ->
                TransferEvent.signature x <> TransferEvent.signature d) as Hnew.
      { intros k x Hk Hx. apply not_true_iff_false in Hdup. apply Hdup.
        apply isDuplicateTransfer_true. exists x. split; [| done].
        by eapply list_elem_of_lookup_2. }
      split; intros [| i] [| j] x x' Hi Hj; simpl in *; try done.
      * intros _ Hx. injection Hi as <-. symmetry in Hx. by apply Hnew in Hj.
      * intros _ Hx. injection Hj as <-. by apply Hnew in Hi.
      * intros Hx Hxx. f_equal. eauto.
      * intros Hx. f_equal. eauto.
    + rewrite slice_prefix by (unfold LiveFeed.MAX_FEED_ITEMS; lia).
      apply duplicate_free_take. destruct Hfree as [Ht Hc].
      split; intros [| i] [| j] x x' Hi Hj; simpl in *; try done.
      * intros Hx _. injection Hi as <-. congruence.
      * intros Hx Hxx. injection Hj as <-. rewrite Hxx in Hx. congruence.
      * intros Hx Hxx. f_equal. eauto.
      * intros Hx. f_equal. eauto.
  - destruct (LiveFeed.isDuplicateCoordinated c feed) eqn:Hdup; [done |]. simpl.
    rewrite slice_prefix by (unfold LiveFeed.MAX_FEED_ITEMS; lia).
    apply duplicate_free_take. destruct Hfree as [Ht Hc].
    assert (forall k x, feed !! k = Some (LiveFeed.coordinated x) ->
              LiveFeed.tradeKey x <> LiveFeed.tradeKey c) as Hnew.
    { intros k x Hk Hx. apply not_true_iff_false in Hdup. apply Hdup.
      apply isDuplicateCoordinated_true. exists x. split; [| done].
      by eapply list_elem_of_lookup_2. }
    split; intros [| i] [| j] x x' Hi Hj; simpl in *; try done.
    + intros Hx Hxx. f_equal. eauto.
    + intros Hx. injection Hi as <-. symmetry in Hx. by apply Hnew in Hj.
    + intros Hx. injection Hj as <-. by apply Hnew in Hi.
    + intros Hx. f_equal. eauto.
Qed.

(** X13. The live feed holds no duplicates, whatever arrives and in
    whatever order: starting from the empty feed, no two positions hold
    transfers with the same non-empty signature, and no two positions
    hold coordinated trades with the same token address and trigger
    instant. *)
Theorem X13_live_feed_without_duplicates (items : list LiveFeed.FeedItem) :
  let feed := LiveFeed.admitAll items [] in
  (forall i j d d',
     feed !! i = Some (LiveFeed.transfer d) ->
     feed !! j = Some (LiveFeed.transfer d') ->
     JS.truthy (TransferEvent.signature d) = true ->
     TransferEvent.signature d = TransferEvent.signature d' -> i = j) /\
  (forall i j d d',
     feed !! i = Some (LiveFeed.coordinated d) ->
     feed !! j = Some (LiveFeed.coordinated d') ->
     CoordinatedTrade.tokenAddress d = CoordinatedTrade.tokenAddress d' ->
     CoordinatedTrade.triggeredAt d = CoordinatedTrade.triggeredAt d' -> i = j).
Proof.
  intros feed.
  assert (duplicate_free feed) as [Ht Hc].
  { subst feed. induction items as [| item items IH] using rev_ind.
    - split; intros i j d d' Hi; unfold LiveFeed.admitAll in Hi; simpl in Hi;
        by rewrite lookup_nil in Hi.
    - rewrite admitAll_snoc. by apply duplicate_free_admitItem. }
  split; [exact Ht |].
  intros i j d d' Hi Hj Htok Htrig. apply (Hc i j d d' Hi Hj).
  unfold LiveFeed.tradeKey. by rewrite Htok, Htrig.
Qed.

(** ** What the live page derives from the feed *)

(** X14. The counters of the live page add up: transfers plus
    coordinated is the length of the feed, buys plus sells is the number
    of transfers; the side filter never hides a coordinated trade (what
    passes a side filter is the transfers of that side plus all
    coordinated trades, in feed order), and the filter ALL shows the
    whole feed. *)
Theorem X14_counters_and_filter (feed : list LiveFeed.FeedItem) (s : Side) :
  let st := View.stats feed in
  (View.transfers st + View.coordinated st = length feed)%nat /\
  (View.buys st + View.sells st = View.transfers st)%nat /\
  View.filteredItems View.ALL feed = feed /\
  (length (View.filteredItems (View.ONLY s) feed) =
     length (List.filter (View.is_side s) feed) + View.coordinated st)%nat /\
  View.filteredItems (View.ONLY s) feed `sublist_of` feed /\
  List.filter View.is_coordinated (View.filteredItems (View.ONLY s) feed) =
    List.filter View.is_coordinated feed.
Proof.
  unfold View.stats, View.filteredItems. simpl.
  induction feed as [| item feed (IH1 & IH2 & IH3 & IH4 & IH5 & IH6)]; [done |].
  destruct item as [d | c]; simpl.
  - destruct d as [? ? ? ? ? ? sd]. simpl.
    destruct sd, s; simpl; rewrite ?IH3, ?IH6;
      (repeat split; try lia; try done; try (by constructor)).
    all: f_equal; lia.
  - rewrite IH3, IH6. repeat split; try lia; try done. by constructor.
Qed.

(** X15. The dashboard table shows the 20 newest transfers while the
    list behind it holds up to 50: with a positive [limit] the list
    component shows the first [limit] entries, and on the dashboard that
    is the newest 20 arrivals, newest first; a [limit] of 0 or none shows
    the whole list. *)
Theorem X15_table_shows_newest (evs : list TransferEvent.t) (n : Z) :
  0 < n ->
  let listed := Dashboard.recentTransfers
                  (Dashboard.run (Dashboard.Transfer <$> evs) Dashboard.initial) in
  View.display (Some n) listed = take (Nat.min (Z.to_nat n) 50) (reverse evs) /\
  View.display (Some 20) listed = take 20 (reverse evs) /\
  View.display (Some 0) listed = listed /\
  View.display None listed = listed.
Proof.
  intros Hn listed. subst listed. rewrite dashboard_transfers.
  assert (forall m, 0 < m -> forall l : list TransferEvent.t,
            View.display (Some m) l = take (Z.to_nat m) l) as Hshow.
  { intros m Hm l. unfold View.display. destruct m; try lia.
    apply slice_prefix. lia. }
  rewrite !Hshow by lia. rewrite !take_take. repeat split.
Qed.

(** ** Frames *)

(** X16. The [transfers] listener of [useSSE] delivers what [for ... of]
    can iterate, and only that.  A frame whose payload parses to an
    object, a number, a boolean or null is not delivered (one console
    error, no callback), although it counts as the last event; a payload
    that parses to a string is delivered character by character, one call
    of [onTransfer] for each.  The message handler of [useTransferStream]
    tests for an array instead and delivers each of these payloads as one
    transfer. *)
Theorem X16_single_object_frames
    (JSON_parse : string -> option json) (now : Z) (data : string) (v : json)
    (h : SSE.Hook) :
  JSON_parse data = Some v ->
  (SSE.iterate v = None <->
   (forall items, v <> JArr items) /\ (forall s, v <> JStr s)) /\
  (SSE.iterate v = None ->
   SSE.UseSSE.on_transfers JSON_parse now data h =
     (SSE.setLastEvent (Some now) h, [ConsoleError "[SSE] Failed to parse transfers event:"]) /\
   SSE.UseTransferStream.onmessage JSON_parse data h = (h, [Call_onTransfer v])) /\
  (forall s : string,
     v = JStr s ->
     SSE.onTransfer (SSE.callbacksRef h) = true ->
     SSE.UseSSE.on_transfers JSON_parse now data h =
       (SSE.setLastEvent (Some now) h,
        (fun c => Call_onTransfer (JStr (String c EmptyString))) <$> chars s) /\
     length (SSE.UseSSE.on_transfers JSON_parse now data h).2 = String.length s /\
     SSE.UseTransferStream.onmessage JSON_parse data h = (h, [Call_onTransfer (JStr s)])).
Proof.
  intros Hparse.
  unfold SSE.UseSSE.on_transfers, SSE.UseTransferStream.onmessage.
  rewrite Hparse. unfold SSE.seq, SSE.modify. simpl.
  split; [| split].
  - split.
    + intros Hiter. split; intros x ->; discriminate Hiter.
    + intros [Harr Hstr]. destruct v as [| | | s | items |]; try reflexivity.
      * by destruct (Hstr s).
      * by destruct (Harr items).
  - intros Hiter. rewrite Hiter. split; [done |]. by destruct v.
  - intros s -> Hcb. simpl. rewrite Hcb.
    assert (forall l : list ascii,
              Call_onTransfer <$> ((fun c => JStr (String c EmptyString)) <$> l) =
              (fun c => Call_onTransfer (JStr (String c EmptyString))) <$> l) as Hmap.
    { intros l. by rewrite <- list_fmap_compose. }
    unfold chars. rewrite Hmap. split; [done |]. split; [| done].
    simpl. rewrite length_fmap.
    clear. induction s as [| c s IH]; simpl; [done | by rewrite IH].
Qed.

Lemma deliver_snoc {Page} (callback : Effect -> Page -> Page * list Effect) effs e p :
  (Wiring.deliver callback (effs ++ [e]) p).1 =
  (callback e (Wiring.deliver callback effs p).1).1.
Proof.
  unfold Wiring.deliver. rewrite foldl_app. simpl.
  by destruct (callback e _).
Qed.

Lemma deliver_transfers now items p :
  (Wiring.deliver (Wiring.dashboard now) (Call_onTransfer <$> items) p).1 =
  Dashboard.run (Dashboard.Transfer <$> (Wiring.asTransferEvent <$> items)) p.
Proof.
  induction items as [| v items IH] using rev_ind; [done |].
  rewrite !fmap_app.
  change (Call_onTransfer <$> [v]) with [Call_onTransfer v].
  change (Dashboard.Transfer <$> (Wiring.asTransferEvent <$> [v]))
    with [Dashboard.Transfer (Wiring.asTransferEvent v)].
  by rewrite deliver_snoc, run_snoc, IH.
Qed.

(** X17. The transfers of one frame reach the dashboard in array order:
    after a [transfers] frame carrying an array, the list starts with the
    last element of the array, followed by the ones before it and then by
    what was listed, cut to 50; the counter goes up by the size of the
    array and the hook records the frame as the last event. *)
Theorem X17_frame_reaches_dashboard
    (JSON_parse : string -> option json) (now : Z) (clock data : string)
    (items : list json) (h : SSE.Hook) (p : Dashboard.Page) :
  JSON_parse data = Some (JArr items) ->
  SSE.onTransfer (SSE.callbacksRef h) = true ->
  Dashboard.isPaused p = false ->
  (length (Dashboard.recentTransfers p) <= 50)%nat ->
  let r := SSE.UseSSE.on_transfers JSON_parse now data h in
  let p' := (Wiring.deliver (Wiring.dashboard clock) r.2 p).1 in
  SSE.lastEvent r.1 = Some now /\
  SSE.status r.1 = SSE.status h /\
  Dashboard.recentTransfers p' =
    take 50 (reverse (Wiring.asTransferEvent <$> items) ++ Dashboard.recentTransfers p) /\
  Dashboard.transferCount (Dashboard.stats p') =
    Dashboard.transferCount (Dashboard.stats p) + Z.of_nat (length items).
Proof.
  intros Hparse Hcb Hp Hlen r p'. subst r p'.
  unfold SSE.UseSSE.on_transfers. rewrite Hparse.
  unfold SSE.seq, SSE.modify. simpl.
  rewrite Hcb. simpl. rewrite deliver_transfers.
  destruct (transfer_burst (Wiring.asTransferEvent <$> items) p Hp Hlen)
    as (Hl & Hn & _).
  rewrite length_fmap in Hn.
  split; [by destruct h |]. split; [by destruct h |]. by split.
Qed.

(** ** Relative times *)

(** X18. Anything less than five seconds old is "just now", and so is
    every instant in the future of the clock. *)
Theorem X18_just_now (now past : Z) :
  now - past < 5000 ->
  Utils.formatTimeAgo now past = "just now".
Proof.
  intros Hlt. unfold Utils.formatTimeAgo.
  assert ((now - past) / 1000 < 5) as Hs by (apply Z.div_lt_upper_bound; lia).
  apply Z.ltb_lt in Hs. by rewrite Hs.
Qed.

Lemma whole_days (elapsed lo hi : Z) :
  0 <= lo -> lo * day_ms <= elapsed < hi * day_ms ->
  lo <= elapsed / 1000 / 60 / 60 / 24 < hi.
Proof.
  intros Hlo [Hge Hlt]. unfold day_ms in *.
  rewrite !Z.div_div by lia. change (1000 * 60 * 60 * 24) with 86400000.
  split.
  - apply Z.div_le_lower_bound; lia.
  - apply Z.div_lt_upper_bound; lia.
Qed.

Lemma past_a_week (elapsed d : Z) :
  elapsed / 1000 / 60 / 60 / 24 = d -> 7 <= d ->
  (elapsed / 1000 <? 5) = false /\
  (elapsed / 1000 <? 60) = false /\
  (elapsed / 1000 / 60 <? 60) = false /\
  (elapsed / 1000 / 60 / 60 <? 24) = false /\
  (d <? 7) = false.
Proof.
  intros Hd H7.
  assert (24 <= elapsed / 1000 / 60 / 60) as Hh.
  { destruct (Z.lt_ge_cases (elapsed / 1000 / 60 / 60) 24) as [Hlt | ]; [| done].
    apply (Z.div_lt_upper_bound _ 24 1) in Hlt; lia. }
  assert (60 <= elapsed / 1000 / 60) as Hm.
  { destruct (Z.lt_ge_cases (elapsed / 1000 / 60) 60) as [Hlt | ]; [| done].
    apply (Z.div_lt_upper_bound _ 60 1) in Hlt; lia. }
  assert (60 <= elapsed / 1000) as Hs.
  { destruct (Z.lt_ge_cases (elapsed / 1000) 60) as [Hlt | ]; [| done].
    apply (Z.div_lt_upper_bound _ 60 1) in Hlt; lia. }
  repeat split; apply Z.ltb_ge; lia.
Qed.

(** X19. Two gaps in the units: an instant 28 or 29 days old is shown
    as "0mo ago" (four weeks have passed but not thirty days), and one
    360 to 364 days old as "0y ago" (twelve thirty-day months have passed
    but not 365 days). *)
Theorem X19_zero_months_and_years (now past : Z) :
  (28 * day_ms <= now - past < 30 * day_ms ->
   Utils.formatTimeAgo now past = "0mo ago") /\
  (360 * day_ms <= now - past < 365 * day_ms ->
   Utils.formatTimeAgo now past = "0y ago").
Proof.
  unfold Utils.formatTimeAgo. split; intros Hrange.
  - destruct (whole_days (now - past) 28 30 ltac:(lia) Hrange) as [Hlo Hhi].
    set (d := (now - past) / 1000 / 60 / 60 / 24) in *.
    destruct (past_a_week (now - past) d eq_refl ltac:(lia)) as (-> & -> & -> & -> & ->).
    assert (d / 7 = 4) as Hw by (symmetry; apply Z.div_unique with (d - 28); lia).
    assert (d / 30 = 0) as Hmo by (apply Z.div_small; lia).
    cbv zeta. fold d. rewrite Hw, Hmo. reflexivity.
  - destruct (whole_days (now - past) 360 365 ltac:(lia) Hrange) as [Hlo Hhi].
    set (d := (now - past) / 1000 / 60 / 60 / 24) in *.
    destruct (past_a_week (now - past) d eq_refl ltac:(lia)) as (-> & -> & -> & -> & ->).
    assert (4 <= d / 7) as Hw by (apply Z.div_le_lower_bound; lia).
    assert (d / 30 = 12) as Hmo by (symmetry; apply Z.div_unique with (d - 360); lia).
    assert (d / 365 = 0) as Hy by (apply Z.div_small; lia).
    cbv zeta. fold d. rewrite Hmo, Hy.
    replace (d / 7 <? 4) with false by (symmetry; apply Z.ltb_ge; lia).
    reflexivity.
Qed.

(** ** Shortened addresses *)

Lemma chars_append a b : chars (a +:+ b) = chars a ++ chars b.
Proof. induction a as [| c a IH]; simpl; [done | by rewrite IH]. Qed.

Lemma chars_length s : length (chars s) = String.length s.
Proof. induction s as [| c s IH]; simpl; [done | by rewrite IH]. Qed.

Lemma chars_inj s1 s2 : chars s1 = chars s2 -> s1 = s2.
Proof.
  intros H. rewrite <- (String.string_of_list_ascii_of_string s1),
    <- (String.string_of_list_ascii_of_string s2). unfold chars in H. by rewrite H.
Qed.

Lemma chars_str_slice a b s : chars (Utils.str_slice a b s) = JS.slice a b (chars s).
Proof. unfold chars, Utils.str_slice. apply String.list_ascii_of_string_of_list_ascii. Qed.

Lemma slice_all {A} (l : list A) : JS.slice 0 None l = l.
Proof.
  unfold JS.slice, JS.rel_index. simpl. rewrite Z.min_l by lia.
  rewrite Z.sub_0_r, Nat2Z.id. simpl. by rewrite take_ge.
Qed.

Lemma truncateAddress_short s a b :
  Utils.str_length s <= a + b -> Utils.truncateAddress s a b = s.
Proof.
  intros Hlen. unfold Utils.truncateAddress.
  destruct (String.eqb s "") eqn:He; [by apply String.eqb_eq in He |].
  by replace (Utils.str_length s <=? a + b) with true by (symmetry; apply Z.leb_le; lia).
Qed.

Lemma truncateAddress_long s a b :
  0 <= a -> 0 <= b -> a + b < Utils.str_length s ->
  chars (Utils.truncateAddress s a b) =
  take (Z.to_nat a) (chars s) ++ chars "..." ++
  (if decide (b = 0) then chars s else drop (length (chars s) - Z.to_nat b) (chars s)).
Proof.
  intros Ha Hb Hlen. unfold Utils.truncateAddress.
  destruct (String.eqb s "") eqn:He.
  { apply String.eqb_eq in He. subst s. unfold Utils.str_length in Hlen. simpl in Hlen. lia. }
  replace (Utils.str_length s <=? a + b) with false by (symmetry; apply Z.leb_gt; lia).
  rewrite !chars_append, !chars_str_slice, slice_prefix by done.
  do 2 f_equal. case_decide as Hb0.
  - subst b. apply slice_all.
  - apply slice_last. lia.
Qed.

(** X20. Shortening an address is idempotent: for every address and
    every [startChars >= 0] and [endChars > 0], shortening the result
    again gives the same text.  An address longer than [startChars +
    endChars] becomes its first [startChars] characters, three dots and
    its last [endChars] characters; a shorter one is left alone. *)
Theorem X20_truncateAddress_idempotent (address : string) (a b : Z) :
  0 <= a -> 0 < b ->
  Utils.truncateAddress (Utils.truncateAddress address a b) a b =
    Utils.truncateAddress address a b /\
  (Utils.str_length address <= a + b -> Utils.truncateAddress address a b = address) /\
  (a + b < Utils.str_length address ->
   chars (Utils.truncateAddress address a b) =
     take (Z.to_nat a) (chars address) ++ chars "..." ++
     drop (length (chars address) - Z.to_nat b) (chars address) /\
   Utils.str_length (Utils.truncateAddress address a b) = a + 3 + b).
Proof.
  intros Ha Hb.
  assert (a + b < Utils.str_length address ->
          chars (Utils.truncateAddress address a b) =
            take (Z.to_nat a) (chars address) ++ chars "..." ++
            drop (length (chars address) - Z.to_nat b) (chars address) /\
          Utils.str_length (Utils.truncateAddress address a b) = a + 3 + b) as Hlong.
  { intros Hlen. pose proof (truncateAddress_long address a b Ha ltac:(lia) Hlen) as Hc.
    rewrite decide_False in Hc by lia. split; [done |].
    unfold Utils.str_length in *. rewrite <- chars_length in *. rewrite Hc.
    rewrite !length_app, length_take, length_drop. simpl. lia. }
  split; [| split; [apply truncateAddress_short | exact Hlong]].
  destruct (Z.le_gt_cases (Utils.str_length address) (a + b)) as [Hshort | Hlen].
  - rewrite (truncateAddress_short address) by done. by apply truncateAddress_short.
  - destruct (Hlong ltac:(lia)) as [Hc Hl]. apply chars_inj.
    pose proof (truncateAddress_long (Utils.truncateAddress address a b) a b
                  Ha ltac:(lia) ltac:(lia)) as Hc2.
    rewrite decide_False in Hc2 by lia. rewrite Hc2.
    unfold Utils.str_length in Hlen, Hl. rewrite <- chars_length in Hlen, Hl.
    set (l := chars address) in *. set (r := chars (Utils.truncateAddress address a b)) in *.
    assert (length (take (Z.to_nat a) l) = Z.to_nat a) as Hta
      by (rewrite length_take; lia).
    assert (take (Z.to_nat a) r = take (Z.to_nat a) l) as ->
      by (by rewrite Hc, take_app_length').
    assert (drop (length r - Z.to_nat b) r = drop (length l - Z.to_nat b) l) as ->.
    { replace (length r - Z.to_nat b)%nat
        with (length (take (Z.to_nat a) l ++ chars "..."))
        by (rewrite length_app, Hta; simpl; lia).
      rewrite Hc, (assoc_L (++)). apply drop_app_length. }
    by rewrite Hc.
Qed.

(** X21. With [endChars = 0] nothing is cut off at the end: because
    [slice(-0)] is [slice(0)], an address longer than [startChars] comes
    back as its first [startChars] characters, three dots and then the
    whole address, so the result is longer than the input. *)
Theorem X21_truncateAddress_zero_end (address : string) (a : Z) :
  0 <= a -> a < Utils.str_length address ->
  chars (Utils.truncateAddress address a 0) =
    take (Z.to_nat a) (chars address) ++ chars "..." ++ chars address /\
  Utils.str_length (Utils.truncateAddress address a 0) = a + 3 + Utils.str_length address.
Proof.
  intros Ha Hlen.
  pose proof (truncateAddress_long address a 0 Ha ltac:(lia) ltac:(lia)) as Hc.
  rewrite decide_True in Hc by done. split; [done |].
  unfold Utils.str_length in *. rewrite <- !chars_length in *. rewrite Hc.
  rewrite !length_app, length_take. simpl. lia.
Qed.

(** ** Worked instances *)

Lemma reachable_connected :
  Lifecycle.reachable Lifecycle.useSSE all_callbacks SSE.no_options
    (useSSE_connected SSE.no_options).
Proof.
  apply (Lifecycle.reach_fire _ _ _
           (after (SSE.UseSSE.connect None) (SSE.mount all_callbacks SSE.no_options))
           (Lifecycle.Open 0)); [| reflexivity].
  apply (Lifecycle.reach_fire _ _ _ (SSE.mount all_callbacks SSE.no_options)
           (Lifecycle.Connect None)); [| reflexivity].
  apply Lifecycle.reach_mount.
Defined.

Lemma reachable_failed_once :
  Lifecycle.reachable Lifecycle.useSSE all_callbacks SSE.no_options failed_once.
Proof.
  apply (Lifecycle.reach_fire _ _ _ (useSSE_connected SSE.no_options)
           (Lifecycle.Error 0)); [| reflexivity].
  apply reachable_connected.
Defined.

Lemma useSSE_is_hook : Lifecycle.useSSE ∈ Lifecycle.hooks.
Proof. unfold Lifecycle.hooks. by constructor. Defined.

Lemma useTransferStream_is_per_kind : Lifecycle.useTransferStream ∈ per_kind_hooks.
Proof. unfold per_kind_hooks. by constructor. Defined.

Lemma X1_at_most_one_open_source_witness :
  Lifecycle.useSSE ∈ Lifecycle.hooks /\
  Lifecycle.reachable Lifecycle.useSSE all_callbacks SSE.no_options
    (useSSE_connected SSE.no_options) /\
  SSE.is_open 0 (useSSE_connected SSE.no_options) = true /\
  SSE.eventSourceRef (useSSE_connected SSE.no_options) = Some 0%nat.
Proof.
  split; [exact useSSE_is_hook |]. split; [exact reachable_connected |].
  split; [reflexivity |].
  apply (X1_at_most_one_open_source _ _ _ _ useSSE_is_hook reachable_connected).
  reflexivity.
Defined.

Lemma X2_no_timeout_beside_open_source_witness :
  SSE.reconnectTimeoutRef failed_once = Some 5000 /\
  SSE.is_open 0 failed_once = false.
Proof.
  split; [reflexivity |].
  apply (X2_no_timeout_beside_open_source _ _ _ _ 5000 0%nat
           useSSE_is_hook reachable_failed_once).
  reflexivity.
Defined.

Lemma X3_attempts_within_ceiling_witness :
  ceiling SSE.no_options = 10 /\
  0 <= SSE.reconnectAttempts failed_once <= 10.
Proof.
  split; [reflexivity |].
  apply (X3_attempts_within_ceiling _ _ _ _ useSSE_is_hook reachable_failed_once).
Defined.

Lemma X4_gives_up_after_ceiling_witness :
  let h := useSSE_connected (max_attempts 2) in
  SSE.maxAttempts h = 2 /\
  SSE.status (Nat.iter 3 Lifecycle.fail h) = disconnected.
Proof.
  intros h. split; [reflexivity |].
  destruct (X4_gives_up_after_ceiling h 2 eq_refl eq_refl eq_refl) as (_ & _ & _ & Hst).
  exact Hst.
Defined.

Lemma X5_reconnect_keeps_counter_witness :
  let h := Nat.iter 3 Lifecycle.fail (useSSE_connected (max_attempts 2)) in
  let h1 := after (SSE.UseSSE.connect None) h in
  SSE.maxAttempts h <= SSE.reconnectAttempts h /\
  SSE.reconnectAttempts h1 = SSE.reconnectAttempts h /\
  SSE.reconnectAttempts (after SSE.UseSSE.disconnect h) = 0 /\
  SSE.status (after (SSE.UseSSE.onerror (current_source h1)) h1) = disconnected.
Proof.
  intros h h1.
  assert (SSE.maxAttempts h <= SSE.reconnectAttempts h) as Hmax by (vm_compute; discriminate).
  pose proof (X5_reconnect_keeps_counter Lifecycle.useSSE None h useSSE_is_hook)
    as (Hkept & _ & Hstopped & _ & Hfailed).
  split; [exact Hmax |].
  split; [exact Hkept |].
  split; [exact (Hstopped eq_refl) |].
  exact (proj1 (Hfailed Hmax)).
Defined.

Lemma X6_per_kind_disconnect_keeps_counter_witness :
  let h := after (SSE.UseTransferStream.onerror 0)
             (after (SSE.UseTransferStream.connect None)
                (SSE.mount all_callbacks SSE.no_options)) in
  SSE.reconnectAttempts h = 1 /\
  SSE.reconnectAttempts (after SSE.UseTransferStream.disconnect h) = SSE.reconnectAttempts h.
Proof.
  intros h. split; [reflexivity |].
  exact (proj1 (X6_per_kind_disconnect_keeps_counter Lifecycle.useTransferStream h
                  useTransferStream_is_per_kind)).
Defined.

Lemma reachable_after_pick :
  LiveStreams.reachable (LiveStreams.setStreamType LiveStreams.transfers LiveStreams.initial).
Proof.
  apply (LiveStreams.reach_fire LiveStreams.initial (LiveStreams.Pick LiveStreams.transfers));
    [| reflexivity].
  apply LiveStreams.reach_initial.
Defined.

Lemma all_not_selected :
  LiveStreams.all <>
  LiveStreams.streamType (LiveStreams.setStreamType LiveStreams.transfers LiveStreams.initial).
Proof. discriminate. Defined.

Lemma X7_only_selected_stream_connected_witness :
  let s := LiveStreams.setStreamType LiveStreams.transfers LiveStreams.initial in
  LiveStreams.reachable s /\
  SSE.status (LiveStreams.stream LiveStreams.all s) = disconnected.
Proof.
  intros s. split; [exact reachable_after_pick |].
  exact (proj2 (proj2 (proj1
           (X7_only_selected_stream_connected s LiveStreams.all reachable_after_pick)
           all_not_selected))).
Defined.

Lemma coordinated_not_selected :
  LiveStreams.coordinated <> LiveStreams.streamType LiveStreams.initial.
Proof. discriminate. Defined.

Lemma X8_switching_streams_witness :
  LiveStreams.reachable LiveStreams.initial /\
  LiveStreams.getConnectionStatus
    (LiveStreams.setStreamType LiveStreams.coordinated LiveStreams.initial) = connecting.
Proof.
  split; [apply LiveStreams.reach_initial |].
  exact (proj1 (proj1
           (X8_switching_streams LiveStreams.initial LiveStreams.coordinated
              LiveStreams.reach_initial) coordinated_not_selected)).
Defined.

Lemma X9_transfer_burst_witness :
  Dashboard.isPaused Dashboard.initial = false /\
  Dashboard.transferCount
    (Dashboard.stats (Dashboard.run (Dashboard.Transfer <$> arrivals 52) Dashboard.initial))
  = 52.
Proof.
  split; [reflexivity |].
  destruct (X9_transfer_burst (arrivals 52) Dashboard.initial eq_refl) as (_ & Hn & _).
  - simpl. lia.
  - rewrite Hn. reflexivity.
Defined.

Lemma X10_clear_keeps_key_memory_witness :
  let seen100 := sample_trade "Tok1" (Some "100") None in
  let p := Dashboard.run [Dashboard.Coordinated "n1" seen100] Dashboard.initial in
  let cleared := (Dashboard.handleClearLive p).1 in
  seen100 ∈ Dashboard.recentCoordinated p /\
  instant seen100 = Some "100" /\
  Dashboard.handleCoordinated "n2" seen100 cleared = (cleared, []).
Proof.
  intros seen100 p cleared.
  assert (seen100 ∈ Dashboard.recentCoordinated p) as Hin by (by constructor).
  split; [exact Hin |]. split; [reflexivity |].
  exact (proj1 (proj2 (proj2
           (X10_clear_keeps_key_memory [Dashboard.Coordinated "n1" seen100] "n2" seen100 "100"
              Hin eq_refl)))).
Defined.

Lemma X11_paused_arrivals_are_dropped_witness :
  let arriving := [Dashboard.Transfer (sample_transfer (Some "S1"));
                   Dashboard.Coordinated "n1" (sample_trade "Tok1" None (Some "100"))] in
  forallb is_arrival arriving = true /\
  Dashboard.run (Dashboard.TogglePause :: arriving ++ [Dashboard.TogglePause])
    Dashboard.initial = Dashboard.initial.
Proof.
  intros arriving. split; [reflexivity |].
  destruct (X11_paused_arrivals_are_dropped arriving Dashboard.initial eq_refl)
    as (_ & Hresume & _).
  by apply Hresume.
Defined.

Lemma X12_coordinated_list_without_duplicates_witness :
  let t100 := sample_trade "Tok1" (Some "100") None in
  Dashboard.recentCoordinated
    (Dashboard.run [Dashboard.Coordinated "n1" t100; Dashboard.Coordinated "n2" t100]
       Dashboard.initial) = [t100] /\
  0%nat = 0%nat.
Proof.
  intros t100. split; [reflexivity |].
  apply (X12_coordinated_list_without_duplicates
           [Dashboard.Coordinated "n1" t100; Dashboard.Coordinated "n2" t100]
           0 0 t100 t100 "100"); reflexivity.
Defined.

Lemma X15_table_shows_newest_witness :
  length (View.display (Some 20)
            (Dashboard.recentTransfers
               (Dashboard.run (Dashboard.Transfer <$> arrivals 52) Dashboard.initial)))
  = 20%nat.
Proof.
  destruct (X15_table_shows_newest (arrivals 52) 20 eq_refl) as (_ & Hshown & _).
  rewrite Hshown. reflexivity.
Defined.

Lemma X16_single_object_frames_witness :
  let h := useSSE_connected SSE.no_options in
  let t := useTransferStream_connected SSE.no_options in
  JsonText.parse "{}" = Some (JObj []) /\
  (SSE.UseSSE.on_transfers JsonText.parse 7 "{}" h).2 =
    [ConsoleError "[SSE] Failed to parse transfers event:"] /\
  (SSE.UseTransferStream.onmessage JsonText.parse "{}" t).2 = [Call_onTransfer (JObj [])] /\
  JsonText.parse (q "ab") = Some (JStr "ab") /\
  (SSE.UseSSE.on_transfers JsonText.parse 7 (q "ab") h).2 =
    [Call_onTransfer (JStr "a"); Call_onTransfer (JStr "b")] /\
  (SSE.UseTransferStream.onmessage JsonText.parse (q "ab") t).2 = [Call_onTransfer (JStr "ab")].
Proof.
  intros h t.
  destruct (X16_single_object_frames JsonText.parse 7 "{}" (JObj []) h eq_refl)
    as (_ & Hobject & _).
  destruct (Hobject eq_refl) as (Hnamed & _).
  destruct (X16_single_object_frames JsonText.parse 7 "{}" (JObj []) t eq_refl)
    as (_ & Hobject' & _).
  destruct (Hobject' eq_refl) as (_ & Hplain).
  destruct (X16_single_object_frames JsonText.parse 7 (q "ab") (JStr "ab") h eq_refl)
    as (_ & _ & Hstring).
  destruct (Hstring "ab" eq_refl eq_refl) as (Hchars & _).
  destruct (X16_single_object_frames JsonText.parse 7 (q "ab") (JStr "ab") t eq_refl)
    as (_ & _ & Hstring').
  destruct (Hstring' "ab" eq_refl eq_refl) as (_ & _ & Hwhole).
  split; [reflexivity |].
  split; [rewrite Hnamed; reflexivity |].
  split; [rewrite Hplain; reflexivity |].
  split; [reflexivity |].
  split; [rewrite Hchars; reflexivity |].
  rewrite Hwhole; reflexivity.
Defined.

Lemma X17_frame_reaches_dashboard_witness :
  let r := SSE.UseSSE.on_transfers JsonText.parse 7 sample_frame
             (useSSE_connected SSE.no_options) in
  TransferEvent.signature <$>
    Dashboard.recentTransfers (Wiring.deliver (Wiring.dashboard "now") r.2 Dashboard.initial).1
  = [Some "S2"; Some "S1"].
Proof.
  intros r. subst r.
  destruct (X17_frame_reaches_dashboard JsonText.parse 7 "now" sample_frame
              [JObj [("signature", JStr "S1")]; JObj [("signature", JStr "S2")]]
              (useSSE_connected SSE.no_options) Dashboard.initial
              eq_refl eq_refl eq_refl) as (_ & _ & Hlist & _).
  - simpl. lia.
  - rewrite Hlist. reflexivity.
Defined.

Lemma X18_just_now_witness :
  Utils.formatTimeAgo 1000 9000 = "just now".
Proof. apply X18_just_now. reflexivity. Defined.

Lemma X19_zero_months_and_years_witness :
  Utils.formatTimeAgo (29 * day_ms) 0 = "0mo ago" /\
  Utils.formatTimeAgo (364 * day_ms) 0 = "0y ago".
Proof.
  split.
  - apply (X19_zero_months_and_years (29 * day_ms) 0). unfold day_ms. lia.
  - apply (X19_zero_months_and_years (364 * day_ms) 0). unfold day_ms. lia.
Defined.

Lemma X20_truncateAddress_idempotent_witness :
  Utils.truncateAddress "So11111111111111111111111111111111111111112" 6 4 = "So1111...1112" /\
  Utils.truncateAddress "So1111...1112" 6 4 = "So1111...1112".
Proof.
  split; [reflexivity |].
  destruct (X20_truncateAddress_idempotent "So11111111111111111111111111111111111111112" 6 4)
    as (Hidem & _); [lia | lia |].
  exact Hidem.
Defined.

Lemma X21_truncateAddress_zero_end_witness :
  Utils.truncateAddress "So11111111" 6 0 = "So1111...So11111111".
Proof.
  apply chars_inj.
  destruct (X21_truncateAddress_zero_end "So11111111" 6) as (Hc & _);
    [lia | unfold Utils.str_length; simpl; lia |].
  rewrite Hc. reflexivity.
Defined.

(** Examples of relative times around the unit changes. *)
Example formatTimeAgo_examples :
  Utils.formatTimeAgo 59999 0 = "59s ago" /\
  Utils.formatTimeAgo 60000 0 = "1m ago" /\
  Utils.formatTimeAgo (27 * day_ms) 0 = "3w ago" /\
  Utils.formatTimeAgo (30 * day_ms) 0 = "1mo ago" /\
  Utils.formatTimeAgo (365 * day_ms) 0 = "1y ago".
Proof. repeat split. Qed.
